(** * A verification model of the VMAG flight-search core

    Shallow embedding of the search endpoint of [api/views.py]
    ([FlightSearchView.post] and [_generate_cache_key]), of the request
    validation done by [api/serializers.py] ([FlightSearchSerializer]), and of
    the parser service of [flights/services.py] ([FlightParser]: trip-type
    classification, date normalisation, per-card extraction, chunked
    processing, the browser pipeline [run] and the database upsert
    [_save_flights_to_db]).

    Conventions.
    - Python strings are Rocq [string]s read as Latin-1 text: every [ascii]
      byte stands for the code point of the same number (the requests and
      pages the claims are about are ASCII).
    - The browser (Playwright) and the storage engines are external: their
      observable answers are inputs of the model (records [Browser] and the
      engine checks of the database section). *)

From Stdlib Require Import ZArith Lia Bool Ascii String List.
From stdpp Require Import base gmap strings list.
Import ListNotations.
Open Scope Z_scope.
Set Warnings "-register-all".

(** String concatenation (Python's [+] on [str]). *)
Infix "+++" := String.append (right associativity, at level 60).

(* ------------------------------------------------------------------ *)
(** ** Character and string helpers *)

Definition code (c : ascii) : Z := Z.of_nat (nat_of_ascii c).
Definition chr (n : Z) : ascii := ascii_of_nat (Z.to_nat n).

Definition str1 (c : ascii) : string := String c EmptyString.

(** The double quote and backslash characters. *)
Definition dquote : ascii := chr 34.
Definition bslash : ascii := chr 92.

Fixpoint str_of (l : list ascii) : string :=
  match l with
  | [] => EmptyString
  | c :: l' => String c (str_of l')
  end.

Fixpoint chars (s : string) : list ascii :=
  match s with
  | EmptyString => []
  | String c s' => c :: chars s'
  end.

Definition concat_str (l : list string) : string := fold_right String.append EmptyString l.

(** [sep.join(l)] *)
Fixpoint join (sep : string) (l : list string) : string :=
  match l with
  | [] => EmptyString
  | [x] => x
  | x :: l' => x +++ sep +++ join sep l'
  end.

Definition is_digit (c : ascii) : bool := (48 <=? code c) && (code c <=? 57).
Definition digit_val (c : ascii) : Z := code c - 48.
Definition digit_chr (n : Z) : ascii := chr (48 + n).

(** Python's [str.isspace] on Latin-1 code points (also what [\s], [strip()]
    and [int()] use for [str]). *)
Definition is_space (c : ascii) : bool :=
  let n := code c in
  ((9 <=? n) && (n <=? 13)) || ((28 <=? n) && (n <=? 32)) || (n =? 133) || (n =? 160).

Definition lower (c : ascii) : ascii :=
  if (65 <=? code c) && (code c <=? 90) then chr (code c + 32) else c.

(** Decimal digits of a natural number, most significant first. *)
Fixpoint digits_rev_fuel (fuel : nat) (n : Z) : list ascii :=
  match fuel with
  | O => []
  | S f => if n <? 10 then [digit_chr n]
           else digit_chr (n mod 10) :: digits_rev_fuel f (n / 10)
  end.

Definition nat_digits (n : Z) : list ascii := rev (digits_rev_fuel 64 n).

(** [str(z)] for a Python [int]. *)
Definition z_to_dec (z : Z) : string :=
  if z <? 0 then String "-" (str_of (nat_digits (- z))) else str_of (nat_digits z).

(** ["%02d" % n] *)
Definition pad2 (n : Z) : list ascii := [digit_chr (n / 10); digit_chr (n mod 10)].


(** Lower-case hexadecimal, as [format(n, '0Nx')]. *)
Definition hex_digit (n : Z) : ascii := if n <? 10 then chr (48 + n) else chr (87 + n).
Definition hex2 (n : Z) : string :=
  String (hex_digit (n / 16)) (String (hex_digit (n mod 16)) EmptyString).
Definition hex4 (n : Z) : string := hex2 (n / 256) +++ hex2 (n mod 256).

(* ------------------------------------------------------------------ *)
(** ** MD5 ([hashlib.md5(...).hexdigest()]), RFC 1321 *)

Module MD5.

Definition mask32 (x : Z) : Z := Z.land x (2 ^ 32 - 1).
Definition add32 (x y : Z) : Z := mask32 (x + y).
Definition not32 (x : Z) : Z := Z.lxor x (2 ^ 32 - 1).
Definition rotl32 (x : Z) (s : Z) : Z :=
  mask32 (Z.lor (Z.shiftl x s) (Z.shiftr x (32 - s))).

Definition K : list Z :=
  [0xd76aa478; 0xe8c7b756; 0x242070db; 0xc1bdceee; 0xf57c0faf; 0x4787c62a;
   0xa8304613; 0xfd469501; 0x698098d8; 0x8b44f7af; 0xffff5bb1; 0x895cd7be;
   0x6b901122; 0xfd987193; 0xa679438e; 0x49b40821; 0xf61e2562; 0xc040b340;
   0x265e5a51; 0xe9b6c7aa; 0xd62f105d; 0x02441453; 0xd8a1e681; 0xe7d3fbc8;
   0x21e1cde6; 0xc33707d6; 0xf4d50d87; 0x455a14ed; 0xa9e3e905; 0xfcefa3f8;
   0x676f02d9; 0x8d2a4c8a; 0xfffa3942; 0x8771f681; 0x6d9d6122; 0xfde5380c;
   0xa4beea44; 0x4bdecfa9; 0xf6bb4b60; 0xbebfbc70; 0x289b7ec6; 0xeaa127fa;
   0xd4ef3085; 0x04881d05; 0xd9d4d039; 0xe6db99e5; 0x1fa27cf8; 0xc4ac5665;
   0xf4292244; 0x432aff97; 0xab9423a7; 0xfc93a039; 0x655b59c3; 0x8f0ccc92;
   0xffeff47d; 0x85845dd1; 0x6fa87e4f; 0xfe2ce6e0; 0xa3014314; 0x4e0811a1;
   0xf7537e82; 0xbd3af235; 0x2ad7d2bb; 0xeb86d391].

Definition shift (i : nat) : Z :=
  match Nat.div i 16, Nat.modulo i 4 with
  | 0%nat, 0%nat => 7 | 0%nat, 1%nat => 12 | 0%nat, 2%nat => 17 | 0%nat, _ => 22
  | 1%nat, 0%nat => 5 | 1%nat, 1%nat => 9 | 1%nat, 2%nat => 14 | 1%nat, _ => 20
  | 2%nat, 0%nat => 4 | 2%nat, 1%nat => 11 | 2%nat, 2%nat => 16 | 2%nat, _ => 23
  | _, 0%nat => 6 | _, 1%nat => 10 | _, 2%nat => 15 | _, _ => 21
  end.

(** Round function and message-word index of step [i]. *)
Definition fg (i : nat) (b c d : Z) : Z * nat :=
  match Nat.div i 16 with
  | 0%nat => (Z.lor (Z.land b c) (Z.land (not32 b) d), i)
  | 1%nat => (Z.lor (Z.land d b) (Z.land (not32 d) c), Nat.modulo (5 * i + 1) 16)
  | 2%nat => (Z.lxor b (Z.lxor c d), Nat.modulo (3 * i + 5) 16)
  | _ => (Z.lxor c (Z.lor b (not32 d)), Nat.modulo (7 * i) 16)
  end.

Record st := mkst { sa : Z; sb : Z; sc : Z; sd : Z }.

Definition step (m : list Z) (s : st) (i : nat) : st :=
  let '(f, g) := fg i (sb s) (sc s) (sd s) in
  let f' := add32 (add32 (add32 f (sa s)) (nth i K 0)) (nth g m 0) in
  mkst (sd s) (add32 (sb s) (rotl32 f' (shift i))) (sb s) (sc s).

Definition block (s : st) (m : list Z) : st :=
  let s' := fold_left (step m) (seq 0 64) s in
  mkst (add32 (sa s) (sa s')) (add32 (sb s) (sb s')) (add32 (sc s) (sc s'))
       (add32 (sd s) (sd s')).

(** Little-endian 32-bit words of a byte list. *)
Fixpoint words (bs : list Z) : list Z :=
  match bs with
  | b0 :: b1 :: b2 :: b3 :: r =>
      (b0 + 256 * b1 + 65536 * b2 + 16777216 * b3) :: words r
  | _ => []
  end.

Definition le_bytes (n : nat) (x : Z) : list Z :=
  map (fun i => Z.land (Z.shiftr x (8 * Z.of_nat i)) 255) (seq 0 n).

Definition pad (bs : list Z) : list Z :=
  let len := Z.of_nat (length bs) in
  let zeros := Z.to_nat ((55 - len) mod 64) in
  bs ++ [128] ++ repeat 0 zeros ++ le_bytes 8 (8 * len).

Fixpoint blocks (fuel : nat) (ws : list Z) : list (list Z) :=
  match fuel with
  | O => []
  | S f => match ws with
           | [] => []
           | _ => firstn 16 ws :: blocks f (skipn 16 ws)
           end
  end.

Definition init : st := mkst 0x67452301 0xefcdab89 0x98badcfe 0x10325476.

Definition digest (bs : list Z) : list Z :=
  let ws := words (pad bs) in
  let s := fold_left block (blocks (length ws) ws) init in
  le_bytes 4 (sa s) ++ le_bytes 4 (sb s) ++ le_bytes 4 (sc s) ++ le_bytes 4 (sd s).

Definition hexdigest (s : string) : string :=
  concat_str (map hex2 (digest (map code (chars s)))).

End MD5.

Example md5_empty :
  MD5.hexdigest EmptyString = "d41d8cd98f00b204e9800998ecf8427e".
Proof. vm_compute. reflexivity. Qed.

(* ------------------------------------------------------------------ *)
(** ** JSON values and [json.dumps(..., sort_keys=True)] *)

(** A JSON document as [json.loads] returns it (numbers are integers in
    this model) and as [json.dumps] accepts it. *)
Inductive jval :=
  | JNull
  | JBool (b : bool)
  | JInt (z : Z)
  | JStr (s : string)
  | JList (l : list jval)
  | JObj (kvs : list (string * jval)).

(** Python's [str] ordering: lexicographic on code points. *)
Fixpoint str_ltb (s t : string) : bool :=
  match s, t with
  | EmptyString, String _ _ => true
  | String _ _, EmptyString => false
  | EmptyString, EmptyString => false
  | String a s', String b t' =>
      if (code a <? code b) then true
      else if (code a =? code b) then str_ltb s' t' else false
  end.

(** [sorted(dct.items())] on a dict: its keys are distinct, so only the
    keys are compared (insertion sort). *)
Fixpoint insert_item {A} (x : string * A) (l : list (string * A)) : list (string * A) :=
  match l with
  | [] => [x]
  | y :: l' => if str_ltb (fst x) (fst y) then x :: y :: l' else y :: insert_item x l'
  end.

Definition sort_items {A} (l : list (string * A)) : list (string * A) :=
  fold_right insert_item [] l.

(** [py_encode_basestring_ascii]: the string literal [json.dumps] writes
    with [ensure_ascii=True]. *)
Definition escape_char (c : ascii) : string :=
  let n := code c in
  if n =? 34 then str1 bslash +++ str1 dquote
  else if n =? 92 then str1 bslash +++ str1 bslash
  else if n =? 10 then str1 bslash +++ "n"
  else if n =? 13 then str1 bslash +++ "r"
  else if n =? 9 then str1 bslash +++ "t"
  else if n =? 8 then str1 bslash +++ "b"
  else if n =? 12 then str1 bslash +++ "f"
  else if (32 <=? n) && (n <=? 126) then str1 c
  else str1 bslash +++ "u" +++ hex4 n.

Definition encode_str (s : string) : string :=
  str1 dquote +++ concat_str (map escape_char (chars s)) +++ str1 dquote.

(** [json.dumps(v, sort_keys=True)] with the default separators
    [", "] and [": "]. *)
Fixpoint dumps (v : jval) : string :=
  match v with
  | JNull => "null"
  | JBool true => "true"
  | JBool false => "false"
  | JInt z => z_to_dec z
  | JStr s => encode_str s
  | JList l => "[" +++ join ", " (map dumps l) +++ "]"
  | JObj kvs =>
      "{" +++ join ", "
        (map (fun kv => encode_str (fst kv) +++ ": " +++ snd kv)
             (sort_items (map (fun kv => (fst kv, dumps (snd kv))) kvs)))
      +++ "}"
  end.

(* ------------------------------------------------------------------ *)
(** ** Validated search data ([serializer.validated_data]) *)

Record Leg := mkLeg { origin : string; destination : string; date : string }.

Record SearchData := mkSearch {
  legs : list Leg;
  ADT : Z;
  CNN : Z;
  INF : Z;
  cabin : string
}.

(** The [OrderedDict] DRF builds, fields in declaration order. *)
Definition leg_json (l : Leg) : jval :=
  JObj [("origin", JStr (origin l)); ("destination", JStr (destination l));
        ("date", JStr (date l))].

Definition search_json (sd : SearchData) : jval :=
  JObj [("legs", JList (map leg_json (legs sd))); ("ADT", JInt (ADT sd));
        ("CNN", JInt (CNN sd)); ("INF", JInt (INF sd)); ("cabin", JStr (cabin sd))].

(** [FlightSearchView._generate_cache_key] *)
Definition generate_cache_key (sd : SearchData) : string :=
  "flights_search_" +++ MD5.hexdigest (dumps (search_json sd)).

Definition sample_search (d : string) : SearchData :=
  mkSearch [mkLeg "JFK" "LHR" d] 1 0 0 "C".

Example cache_key_sample :
  generate_cache_key (sample_search "2026-01-15")
  = "flights_search_978c2aa756499697e954db84b2a8ffe8".
Proof. vm_compute. reflexivity. Qed.

(* ------------------------------------------------------------------ *)
(** ** Request validation ([FlightSearchSerializer(data=...).is_valid()]) *)

(** [dict.get(key)] on a JSON object (its keys are distinct). *)
Definition lookup_key (k : string) (kvs : list (string * jval)) : option jval :=
  match find (fun kv => String.eqb (fst kv) k) kvs with
  | Some kv => Some (snd kv)
  | None => None
  end.

Fixpoint lstrip (l : list ascii) : list ascii :=
  match l with
  | c :: l' => if is_space c then lstrip l' else l
  | [] => []
  end.

(** [str.strip()] *)
Definition strip (l : list ascii) : list ascii := rev (lstrip (rev (lstrip l))).

(** Digits with single underscores between them ([int()] grammar). *)
Fixpoint digits_us (acc : Z) (after_digit : bool) (l : list ascii) : option Z :=
  match l with
  | [] => if after_digit then Some acc else None
  | c :: l' =>
      if is_digit c then digits_us (10 * acc + digit_val c) true l'
      else if (code c =? 95) && after_digit then
        match l' with
        | d :: _ => if is_digit d then digits_us acc false l' else None
        | [] => None
        end
      else None
  end.

(** [int(s)] on a [str]. *)
Definition py_int (l : list ascii) : option Z :=
  match strip l with
  | c :: r =>
      if code c =? 45 then option_map Z.opp (digits_us 0 false r)
      else if code c =? 43 then digits_us 0 false r
      else digits_us 0 false (c :: r)
  | [] => None
  end.

Fixpoint zeros_then_space (l : list ascii) : bool :=
  match l with
  | [] => true
  | c :: l' => if code c =? 48 then zeros_then_space l' else forallb is_space l
  end.

(** [re.compile(r'\.0*\s*$').sub('', s)] *)
Fixpoint strip_decimal (l : list ascii) : list ascii :=
  match l with
  | [] => []
  | c :: l' => if (code c =? 46) && zeros_then_space l' then [] else c :: strip_decimal l'
  end.

(** [str(v)] for the JSON scalars that DRF turns into text. *)
Definition bool_text (b : bool) : string := if b then "True" else "False".

(** [IntegerField().run_validation(v)]; [None] is a validation error. *)
Definition integer_field (v : jval) : option Z :=
  match v with
  | JNull => None
  | JInt z => Some z
  | JBool b => py_int (strip_decimal (chars (bool_text b)))
  | JStr s => if (1000 <? Z.of_nat (String.length s)) then None
              else py_int (strip_decimal (chars s))
  | JList _ | JObj _ => None
  end.

(** [CharField(max_length=m).run_validation(v)] (blank and null refused,
    whitespace trimmed, NUL characters refused). *)
Definition char_field (m : Z) (v : jval) : option string :=
  let check (t : list ascii) :=
    if (m <? Z.of_nat (length t)) || existsb (fun c => code c =? 0) t then None
    else Some (str_of t) in
  match v with
  | JStr s => match strip (chars s) with [] => None | t => check t end
  | JInt z => check (strip (chars (z_to_dec z)))
  | _ => None
  end.

(** [ChoiceField(choices=[('Y',..), ('W',..), ('C',..), ('F',..)])] *)
Definition cabin_field (v : jval) : option string :=
  let known (s : string) :=
    if existsb (String.eqb s) ["Y"; "W"; "C"; "F"] then Some s else None in
  match v with
  | JNull => None
  | JStr s => known s
  | JInt z => known (z_to_dec z)
  | JBool b => known (bool_text b)
  | JList _ | JObj _ => None
  end.

(** A field with a default: absent means the default. *)
Definition with_default {A} (f : jval -> option A) (d : A) (o : option jval) : option A :=
  match o with None => Some d | Some v => f v end.

(** [LegSerializer] on one list item. *)
Definition leg_field (v : jval) : option Leg :=
  match v with
  | JObj kvs =>
      match (o ← lookup_key "origin" kvs; char_field 10 o),
            (d ← lookup_key "destination" kvs; char_field 10 d),
            (t ← lookup_key "date" kvs; char_field 20 t) with
      | Some o, Some d, Some t => Some (mkLeg o d t)
      | _, _, _ => None
      end
  | _ => None
  end.

(** [LegSerializer(many=True)]: required, a list, every item valid. *)
Definition legs_field (o : option jval) : option (list Leg) :=
  match o with
  | Some (JList items) => mapM leg_field items
  | _ => None
  end.

(** [serializer.is_valid()] with [serializer.validated_data] on success
    and the names of the failing fields otherwise. *)
Definition validate (r : jval) : list string + SearchData :=
  match r with
  | JObj kvs =>
      let l := legs_field (lookup_key "legs" kvs) in
      let a := with_default integer_field 1 (lookup_key "ADT" kvs) in
      let c := with_default integer_field 0 (lookup_key "CNN" kvs) in
      let i := with_default integer_field 0 (lookup_key "INF" kvs) in
      let cb := with_default cabin_field "C" (lookup_key "cabin" kvs) in
      match l, a, c, i, cb with
      | Some l, Some a, Some c, Some i, Some cb => inr (mkSearch l a c i cb)
      | _, _, _, _, _ =>
          inl (map fst (List.filter (fun p => negb (snd p))
                 [("legs", bool_decide (is_Some l)); ("ADT", bool_decide (is_Some a));
                  ("CNN", bool_decide (is_Some c)); ("INF", bool_decide (is_Some i));
                  ("cabin", bool_decide (is_Some cb))]))
      end
  | _ => inl ["non_field_errors"]
  end.

(** The cache key [post] derives from a request body, when it validates. *)
Definition request_cache_key (r : jval) : option string :=
  match validate r with
  | inr sd => Some (generate_cache_key sd)
  | inl _ => None
  end.

Definition sample_request (d : string) : jval :=
  JObj [("legs", JList [JObj [("origin", JStr "JFK"); ("destination", JStr "LHR");
                              ("date", JStr d)]]);
        ("cabin", JStr "C")].

Example validate_sample :
  validate (sample_request " 2026-01-15 ") = inr (sample_search "2026-01-15").
Proof. vm_compute. reflexivity. Qed.

Example validate_int_text :
  integer_field (JStr " 2.00 ") = Some 2 /\ integer_field (JStr "1_0") = Some 10
  /\ integer_field (JStr "2.5") = None /\ validate (JObj []) = inl ["legs"].
Proof. vm_compute. repeat split. Qed.

(* ------------------------------------------------------------------ *)
(** ** Trip classification ([FlightParser._determine_trip_type]) *)

Definition determine_trip_type (legs : list Leg) : string :=
  let count := length legs in
  if Nat.eqb count 1 then "one-way"
  else if Nat.eqb count 2 then
    match legs with
    | leg1 :: leg2 :: _ =>
        if String.eqb (origin leg1) (destination leg2)
           && String.eqb (destination leg1) (origin leg2)
        then "return" else "multi-city"
    | _ => "multi-city"
    end
  else "multi-city".

(* ------------------------------------------------------------------ *)
(** ** [datetime.strptime] (CPython [_strptime], C locale)

    [TimeRE.pattern] turns the format into a regular expression: each
    directive becomes a named group, every run of whitespace becomes
    [\s+], other characters match themselves; the expression is compiled
    with [IGNORECASE] and applied with [re.match]. *)

Inductive rx :=
  | RRange (lo hi : Z)          (** one character in [lo..hi] *)
  | RWord (w : string)          (** a word, ignoring case *)
  | RSeq (a b : rx)
  | RAlt (a b : rx)             (** [a|b], [a] tried first *)
  | RSpaces                     (** [\s+], greedy *)
  | RNone.

Fixpoint word_prefix (w : list ascii) (inp : list ascii) : option (list ascii) :=
  match w, inp with
  | [], _ => Some inp
  | a :: w', c :: inp' => if Ascii.eqb (lower a) (lower c) then word_prefix w' inp' else None
  | _ :: _, [] => None
  end.

Fixpoint space_prefix (inp : list ascii) : nat :=
  match inp with
  | c :: r => if is_space c then S (space_prefix r) else O
  | [] => O
  end.

(** All matches of [r] at the start of [inp], in the order the backtracking
    engine tries them: (matched text, rest). *)
Fixpoint rx_match (r : rx) (inp : list ascii) : list (list ascii * list ascii) :=
  match r with
  | RRange lo hi =>
      match inp with
      | c :: rest => if (lo <=? code c) && (code c <=? hi) then [([c], rest)] else []
      | [] => []
      end
  | RWord w =>
      match word_prefix (chars w) inp with
      | Some rest => [(firstn (String.length w) inp, rest)]
      | None => []
      end
  | RSeq a b =>
      flat_map (fun p1 => map (fun p2 => (fst p1 ++ fst p2, snd p2)) (rx_match b (snd p1)))
               (rx_match a inp)
  | RAlt a b => rx_match a inp ++ rx_match b inp
  | RSpaces =>
      map (fun k => (firstn k inp, skipn k inp))
          (rev (map S (seq 0 (space_prefix inp))))
  | RNone => []
  end.

Definition rdigit : rx := RRange 48 57.
Definition rch (c : ascii) : rx := RRange (code c) (code c).
Definition ralts (l : list rx) : rx := fold_right RAlt RNone l.

Definition weekday_abbr : list string := ["mon"; "tue"; "wed"; "thu"; "fri"; "sat"; "sun"].
Definition month_abbr : list string :=
  ["jan"; "feb"; "mar"; "apr"; "may"; "jun"; "jul"; "aug"; "sep"; "oct"; "nov"; "dec"].

(** [TimeRE()[d]] for the directives the parser uses. *)
Definition directive_rx (d : ascii) : rx :=
  match d with
  | "Y"%char => RSeq rdigit (RSeq rdigit (RSeq rdigit rdigit))
  | "m"%char | "I"%char =>
      ralts [RSeq (rch "1") (RRange 48 50); RSeq (rch "0") (RRange 49 57); RRange 49 57]
  | "d"%char =>
      ralts [RSeq (rch "3") (RRange 48 49); RSeq (RRange 49 50) rdigit;
             RSeq (rch "0") (RRange 49 57); RRange 49 57; RSeq (rch " ") (RRange 49 57)]
  | "M"%char => ralts [RSeq (RRange 48 53) rdigit; rdigit]
  | "a"%char => ralts (map RWord weekday_abbr)
  | "b"%char => ralts (map RWord month_abbr)
  | "p"%char => ralts [RWord "am"; RWord "pm"]
  | _ => RNone
  end.

Inductive tok := TLit (c : ascii) | TSpace | TDir (d : ascii).

Fixpoint compile_format (f : list ascii) : list tok :=
  match f with
  | [] => []
  | c :: r =>
      if code c =? 37 then
        match r with
        | d :: r' => TDir d :: compile_format r'
        | [] => [TLit c]
        end
      else if is_space c then
        match compile_format r with
        | TSpace :: t => TSpace :: t
        | t => TSpace :: t
        end
      else TLit c :: compile_format r
  end.

Definition groups := list (ascii * list ascii).

(** Matches of the whole compiled pattern, first one first. *)
Fixpoint pat_match (ts : list tok) (inp : list ascii) (g : groups)
  : list (groups * list ascii) :=
  match ts with
  | [] => [(g, inp)]
  | TLit c :: ts' =>
      match inp with
      | c' :: r => if Ascii.eqb (lower c') (lower c) then pat_match ts' r g else []
      | [] => []
      end
  | TSpace :: ts' => flat_map (fun p => pat_match ts' (snd p) g) (rx_match RSpaces inp)
  | TDir d :: ts' =>
      flat_map (fun p => pat_match ts' (snd p) ((d, fst p) :: g)) (rx_match (directive_rx d) inp)
  end.

Record datetime := mkdt { dt_year : Z; dt_month : Z; dt_day : Z; dt_hour : Z; dt_minute : Z }.

Definition is_leap (y : Z) : bool := (y mod 4 =? 0) && negb (y mod 100 =? 0) || (y mod 400 =? 0).

Definition days_in_month (y m : Z) : Z :=
  if m =? 2 then (if is_leap y then 29 else 28)
  else if existsb (Z.eqb m) [4; 6; 9; 11] then 30 else 31.

(** The checks of [datetime.date(year, month, day)]. *)
Definition valid_ymd (y m d : Z) : bool :=
  (1 <=? y) && (y <=? 9999) && (1 <=? m) && (m <=? 12) && (1 <=? d) && (d <=? days_in_month y m).

Fixpoint index_of (w : list ascii) (l : list string) (i : Z) : option Z :=
  match l with
  | [] => None
  | x :: l' => if bool_decide (chars x = map lower w) then Some i
               else index_of w l' (i + 1)
  end.

Definition group (d : ascii) (g : groups) : option (list ascii) :=
  option_map snd (find (fun p => Ascii.eqb (fst p) d) g).

Definition int_group (d : ascii) (dflt : Z) (g : groups) : option Z :=
  match group d g with Some t => py_int t | None => Some dflt end.

(** The conversion of the matched groups in [_strptime]. *)
Definition convert (g : groups) : option datetime :=
  y ← int_group "Y" 1900 g;
  m ← (match group "b" g with
       | Some t => index_of t month_abbr 1
       | None => int_group "m" 1 g
       end);
  d ← int_group "d" 1 g;
  h ← int_group "I" 0 g;
  mi ← int_group "M" 0 g;
  let ampm := match group "p" g with Some t => map lower t | None => [] end in
  let h' := if (match ampm with [] => true | _ => bool_decide (ampm = chars "am") end)
            then (if h =? 12 then 0 else h)
            else if bool_decide (ampm = chars "pm") then (if h =? 12 then h else h + 12)
            else h in
  if valid_ymd y m d then Some (mkdt y m d h' mi) else None.

(** [datetime.strptime(s, fmt)]; [None] is the [ValueError]. *)
Definition strptime (s : string) (fmt : string) : option datetime :=
  match pat_match (compile_format (chars fmt)) (chars s) [] with
  | (g, []) :: _ => convert g
  | _ => None
  end.

(** [dt.strftime("%Y-%m-%d")] as Python up to 3.12.4 has it: glibc writes
    [%Y] without padding (later versions pad it to four digits; the two
    differ only for years below 1000). *)
Definition strftime_date (dt : datetime) : string :=
  z_to_dec (dt_year dt) +++ "-" +++ str_of (pad2 (dt_month dt)) +++ "-"
  +++ str_of (pad2 (dt_day dt)).

(** [dt.strftime("%Y-%m-%d %H:%M")] *)
Definition strftime_datetime (dt : datetime) : string :=
  strftime_date dt +++ " " +++ str_of (pad2 (dt_hour dt)) +++ ":"
  +++ str_of (pad2 (dt_minute dt)).

(** [FlightParser._format_date]: [inr] the result, [inl] the message of
    the [ValueError] it raises. *)
Definition format_date (date_str : string) : string + string :=
  match strptime date_str "%Y-%m-%d" with
  | Some dt => inr (strftime_date dt)
  | None =>
      match strptime date_str "%m/%d/%Y" with
      | Some dt => inr (strftime_date dt)
      | None => inl ("Неподдерживаемый формат даты: " +++ date_str)
      end
  end.

(** [FlightParser._clean_datetime] *)
Definition clean_datetime (date_str time_str : string) : option string :=
  option_map strftime_datetime
    (strptime (str_of (strip (chars date_str)) +++ " " +++ str_of (strip (chars time_str)))
              "%a, %b %d, %Y %I:%M %p").

Example format_date_samples :
  format_date "01/15/2026" = inr "2026-01-15" /\ format_date "2026-01-15" = inr "2026-01-15"
  /\ format_date "2026-02-30" = inl ("Неподдерживаемый формат даты: " +++ "2026-02-30")
  /\ format_date "2026-1-5" = inr "2026-01-05" /\ format_date "2026-01-100" = inl ("Неподдерживаемый формат даты: " +++ "2026-01-100").
Proof. vm_compute. repeat split. Qed.

Example clean_datetime_samples :
  clean_datetime " Thu, Jan 15, 2026 " "12:05 am" = Some "2026-01-15 00:05"
  /\ clean_datetime "Thu, Jan 15, 2026" " 1:30 PM" = Some "2026-01-15 13:30"
  /\ clean_datetime "Thu, Jan 15, 2026" EmptyString = None.
Proof. vm_compute. repeat split. Qed.

(* ------------------------------------------------------------------ *)
(** ** Python values of the parser's output *)

(** [float(s)] as the decimal literal it reads: [FNum neg mant e] is
    [(-1)^neg * mant * 10^e] (binary rounding is not modelled). *)
Inductive pyfloat := FNum (neg : bool) (mant exp10 : Z) | FInf (neg : bool) | FNaN.

Inductive pyval :=
  | PNone
  | PInt (z : Z)
  | PFloat (f : pyfloat)
  | PStr (s : string)
  | PList (l : list pyval)
  | PDict (kvs : list (string * pyval)).

Definition pdict_get (k : string) (kvs : list (string * pyval)) : option pyval :=
  option_map snd (find (fun kv => String.eqb (fst kv) k) kvs).

(* ------------------------------------------------------------------ *)
(** ** Python string operations used by the extractor *)

Fixpoint strip_prefix (p l : list ascii) : option (list ascii) :=
  match p, l with
  | [], _ => Some l
  | a :: p', c :: l' => if Ascii.eqb a c then strip_prefix p' l' else None
  | _ :: _, [] => None
  end.

Fixpoint replace_fuel (fuel : nat) (old new l : list ascii) : list ascii :=
  match fuel with
  | O => l
  | S f =>
      match l with
      | [] => []
      | c :: r =>
          match strip_prefix old l with
          | Some rest => new ++ replace_fuel f old new rest
          | None => c :: replace_fuel f old new r
          end
      end
  end.

(** [s.replace(old, new)] for a non-empty [old]. *)
Definition replace (s old new : string) : string :=
  str_of (replace_fuel (S (String.length s)) (chars old) (chars new) (chars s)).

Fixpoint contains (p l : list ascii) : bool :=
  bool_decide (is_Some (strip_prefix p l)) || match l with [] => false | _ :: r => contains p r end.

(** [sub in s] *)
Definition str_contains (s sub : string) : bool := contains (chars sub) (chars s).

Fixpoint before (p l : list ascii) : list ascii :=
  match l with
  | [] => []
  | c :: r => if bool_decide (is_Some (strip_prefix p l)) then [] else c :: before p r
  end.

(** [s.split(sep)[0]] *)
Definition split0 (s sep : string) : string := str_of (before (chars sep) (chars s)).

(** [s.strip()] *)
Definition str_strip (s : string) : string := str_of (strip (chars s)).

Fixpoint after_first_space (l : list ascii) : option (list ascii) :=
  match l with
  | [] => None
  | c :: r => if code c =? 32 then Some r else after_first_space r
  end.

(** [s.rsplit(' ', 1)[0]] *)
Definition rsplit0 (s : string) : string :=
  match after_first_space (rev (chars s)) with
  | Some b => str_of (rev b)
  | None => s
  end.

(** [s[-4:-1]] *)
Definition slice_m4_m1 (s : string) : string :=
  let n := String.length s in
  let start := (n - 4)%nat in
  let stop := (n - 1)%nat in
  str_of (firstn (stop - start) (skipn start (chars s))).

(** [float(s)] on a [str]: [None] is the [ValueError]. *)
Fixpoint dp_tail (l : list ascii) : list ascii * list ascii :=
  match l with
  | [] => ([], [])
  | c :: r =>
      if is_digit c then let '(ds, rest) := dp_tail r in (c :: ds, rest)
      else if code c =? 95 then
        match r with
        | d :: r' => if is_digit d then let '(ds, rest) := dp_tail r' in (d :: ds, rest)
                     else ([], l)
        | [] => ([], l)
        end
      else ([], l)
  end.

Definition digitpart (l : list ascii) : option (list ascii * list ascii) :=
  match l with
  | c :: r => if is_digit c then let '(ds, rest) := dp_tail r in Some (c :: ds, rest) else None
  | [] => None
  end.

Definition digits_value (ds : list ascii) : Z := fold_left (fun acc c => 10 * acc + digit_val c) ds 0.

Definition mantissa (l : list ascii) : option (list ascii * list ascii * list ascii) :=
  match digitpart l with
  | Some (ip, r) =>
      match r with
      | c :: r2 =>
          if code c =? 46 then
            match digitpart r2 with
            | Some (fp, r3) => Some (ip, fp, r3)
            | None => Some (ip, [], r2)
            end
          else Some (ip, [], r)
      | [] => Some (ip, [], [])
      end
  | None =>
      match l with
      | c :: r2 => if code c =? 46 then
                     match digitpart r2 with Some (fp, r3) => Some ([], fp, r3) | None => None end
                   else None
      | [] => None
      end
  end.

Definition exponent (l : list ascii) : option Z :=
  match l with
  | [] => Some 0
  | c :: r =>
      if (code c =? 101) || (code c =? 69) then
        let '(neg, r') := match r with
                          | s :: r'' => if code s =? 45 then (true, r'')
                                        else if code s =? 43 then (false, r'') else (false, r)
                          | [] => (false, r)
                          end in
        match digitpart r' with
        | Some (ds, []) => Some (if neg then - digits_value ds else digits_value ds)
        | _ => None
        end
      else None
  end.

Definition py_float (s : string) : option pyfloat :=
  let t := strip (chars s) in
  let '(neg, body) := match t with
                      | c :: r => if code c =? 45 then (true, r)
                                  else if code c =? 43 then (false, r) else (false, t)
                      | [] => (false, t)
                      end in
  let lw := map lower body in
  if bool_decide (lw = chars "inf") || bool_decide (lw = chars "infinity") then Some (FInf neg)
  else if bool_decide (lw = chars "nan") then Some FNaN
  else
    match mantissa body with
    | Some (ip, fp, rest) =>
        e ← exponent rest;
        Some (FNum neg (digits_value (ip ++ fp)) (e - Z.of_nat (length fp)))
    | None => None
    end.

Example py_float_samples :
  py_float " 1_0.5e1 " = Some (FNum false 105 0) /\ py_float "1,234" = None
  /\ py_float EmptyString = None /\ py_float ".5" = Some (FNum false 5 (-1))
  /\ py_float "5." = Some (FNum false 5 0) /\ py_float "-Infinity" = Some (FInf true).
Proof. vm_compute. repeat split. Qed.

(* ------------------------------------------------------------------ *)
(** ** Per-card extraction ([FlightParser._extract_ticket_data]) and
       chunked processing ([FlightParser._process_chunks]) *)

(** What the in-page script returns for one segment; every missing element
    is already [""] there ([?.innerText?.trim() || ""]). *)
Record RawSeg := mkRawSeg {
  rs_airline : string; rs_dep_iata : string; rs_arr_iata : string;
  rs_dep_time : string; rs_arr_time : string; rs_dep_date : string;
  rs_arr_date_raw : string }.

Record RawTicket := mkRawTicket {
  r_airline : string; r_uid : string; r_price : string; r_segments : list RawSeg }.

(** A result card: [ticket.evaluate(...)] either raises or returns the raw
    fields. *)
Inductive Card := CardEvalError (msg : string) | CardRaw (raw : RawTicket).

(** One iteration of [for idx, s in enumerate(raw['segments'])]: [None] is
    the [continue] after a date error. *)
Definition process_segment (idx : nat) (s : RawSeg) : option pyval :=
  let a0 := replace (rs_arr_date_raw s) "Arrives:" EmptyString in
  let a1 := if str_contains a0 "Duration" then split0 a0 "Duration" else a0 in
  let arr_date_val := str_strip a1 in
  match clean_datetime (rs_dep_date s) (rs_dep_time s) with
  | None => None
  | Some dep_dt =>
      match clean_datetime arr_date_val (rs_arr_time s) with
      | None => None
      | Some arr_dt =>
          Some (PDict [("operating_airline", PStr (rsplit0 (rs_airline s)));
                       ("departure", PStr (slice_m4_m1 (rs_dep_iata s)));
                       ("departure_date", PStr dep_dt);
                       ("arrival", PStr (slice_m4_m1 (rs_arr_iata s)));
                       ("arrival_date", PStr arr_dt);
                       ("order", PInt (Z.of_nat idx))])
      end
  end.

Fixpoint process_segments (idx : nat) (segs : list RawSeg) : list pyval :=
  match segs with
  | [] => []
  | s :: r =>
      match process_segment idx s with
      | Some v => v :: process_segments (S idx) r
      | None => process_segments (S idx) r
      end
  end.

Definition price_text (raw : RawTicket) : string :=
  str_strip (replace (replace (r_price raw) "$" EmptyString) "," EmptyString).

(** [_extract_ticket_data]; the empty dict is its [except] branch. *)
Definition extract_ticket_data (card : Card) (sd : SearchData) : pyval :=
  match card with
  | CardEvalError _ => PDict []
  | CardRaw raw =>
      let processed := process_segments 0 (r_segments raw) in
      let uid := str_strip (split0 (replace (r_uid raw) "Ticket ID" EmptyString) "Share") in
      match py_float (price_text raw) with
      | None => PDict []
      | Some price =>
          PDict [("validating_airline", PStr (r_airline raw)); ("ticket_uid", PStr uid);
                 ("price", PFloat price);
                 ("route_type", PStr (determine_trip_type (legs sd)));
                 ("segments", PList processed)]
      end
  end.

(** [isinstance(res, dict) and res] *)
Definition nonempty_dict (v : pyval) : bool :=
  match v with PDict (_ :: _) => true | _ => false end.

(** [items[i:i + chunk_size] for i in range(0, len(items), chunk_size)] *)
Fixpoint chunks {A} (fuel : nat) (size : nat) (l : list A) : list (list A) :=
  match fuel with
  | O => []
  | S f => match l with [] => [] | _ => firstn size l :: chunks f size (skipn size l) end
  end.

(** [_process_chunks]: each chunk gathered in order, only non-empty dicts
    kept (no task raises: [_extract_ticket_data] catches everything). *)
Definition process_chunks (items : list Card) (sd : SearchData) (chunk_size : nat) : list pyval :=
  flat_map (fun chunk => List.filter nonempty_dict (map (fun it => extract_ticket_data it sd) chunk))
           (chunks (length items) chunk_size items).

Definition sample_seg (dep_date : string) : RawSeg :=
  mkRawSeg "Delta Air Lines DL 100" "New York (JFK)" "London (LHR)" "10:30 AM" "10:45 PM"
           dep_date "Arrives: Thu, Jan 15, 2026 Duration 7h 15m".

Definition sample_card (price dep_date : string) : Card :=
  CardRaw (mkRawTicket "Delta" "Ticket ID ABC123 Share" price [sample_seg dep_date]).

Example extract_sample :
  extract_ticket_data (sample_card "$1,234.50" "Thu, Jan 15, 2026") (sample_search "2026-01-15")
  = PDict [("validating_airline", PStr "Delta"); ("ticket_uid", PStr "ABC123");
           ("price", PFloat (FNum false 123450 (-2))); ("route_type", PStr "one-way");
           ("segments", PList [PDict [("operating_airline", PStr "Delta Air Lines DL");
               ("departure", PStr "JFK"); ("departure_date", PStr "2026-01-15 10:30");
               ("arrival", PStr "LHR"); ("arrival_date", PStr "2026-01-15 22:45");
               ("order", PInt 0)]])].
Proof. vm_compute. reflexivity. Qed.

(* ------------------------------------------------------------------ *)
(** ** Python heap: the ticket dicts are shared mutable objects *)

Definition dict := list (string * pyval).

Record Heap := mkHeap { h_objs : gmap nat dict; h_next : nat }.

(** Every live object lies below the allocation pointer. *)
Definition heap_wf (h : Heap) : Prop := forall l, is_Some (h_objs h !! l) -> (l < h_next h)%nat.

Definition alloc (h : Heap) (d : dict) : nat * Heap :=
  (h_next h, mkHeap (<[h_next h := d]> (h_objs h)) (S (h_next h))).

(** The object at [l] (the locations the code passes are always live). *)
Definition obj (h : Heap) (l : nat) : dict := default [] (h_objs h !! l).

Definition set_obj (h : Heap) (l : nat) (d : dict) : Heap :=
  mkHeap (<[l := d]> (h_objs h)) (h_next h).

(** [copy.deepcopy(list_of_dicts)]: a fresh dict per distinct object
    (the memo keeps aliasing); the nested values are never mutated by the
    code and are copied as values. *)
Fixpoint deepcopy (h : Heap) (memo : gmap nat nat) (ls : list nat) : list nat * Heap :=
  match ls with
  | [] => ([], h)
  | l :: r =>
      match memo !! l with
      | Some l' => let '(cs, h') := deepcopy h memo r in (l' :: cs, h')
      | None =>
          let '(l', h1) := alloc h (obj h l) in
          let '(cs, h') := deepcopy h1 (<[l := l']> memo) r in (l' :: cs, h')
      end
  end.

(** [d.pop(k, dflt)]: the value and the dict without [k]. *)
Definition dict_pop (k : string) (dflt : pyval) (d : dict) : pyval * dict :=
  (default dflt (pdict_get k d), List.filter (fun kv => negb (String.eqb (fst kv) k)) d).

Definition dict_get (k : string) (d : dict) : pyval := default PNone (pdict_get k d).

(* ------------------------------------------------------------------ *)
(** ** Database and [_save_flights_to_db] *)

(** A [Ticket] row: the [ticket_uid] and the [defaults] of
    [update_or_create] ([price] is the value given to [Decimal(str(.))]). *)
Record TicketRow := mkTicketRow {
  t_uid : string; t_airline : pyval; t_price : pyval; t_route : pyval }.

(** A [FlightSegment] row (its auto-increment id is not modelled). *)
Record SegRow := mkSegRow {
  s_ticket : string; s_airline : pyval; s_dep : pyval; s_dep_date : pyval;
  s_arr : pyval; s_arr_date : pyval; s_order : pyval }.

Record DB := mkDB { tickets : list TicketRow; segments : list SegRow }.

(** The storage engine's own checks (lengths, digits, types), which depend
    on the engine: a row it refuses makes the statement raise. *)
Record Engine := mkEngine { ticket_ok : TicketRow -> bool; seg_ok : SegRow -> bool }.

(** The [CharField] key of [ticket_uid=...]: a [str], or an [int] turned
    into text; [None] (NULL, refused by the NOT NULL column) and the other
    types, which the parser never produces, count as a failed write. *)
Definition uid_key (v : pyval) : option string :=
  match v with PStr s => Some s | PInt z => Some (z_to_dec z) | _ => None end.

(** [Decimal(str(v))] succeeds. *)
Definition decimal_ok (v : pyval) : bool :=
  match v with
  | PInt _ | PFloat _ => true
  | PStr s => bool_decide (is_Some (py_float s))
              || bool_decide (map lower (strip (chars s)) = chars "snan")
  | _ => false
  end.

(** [for seg_data in segments_list]: the items of an iterable. *)
Definition iter_items (v : pyval) : option (list pyval) :=
  match v with
  | PList l => Some l
  | PStr s => Some (map (fun c => PStr (str1 c)) (chars s))
  | PDict kvs => Some (map (fun kv => PStr (fst kv)) kvs)
  | _ => None
  end.

Definition seg_row (uid : string) (v : pyval) : option SegRow :=
  match v with
  | PDict sd =>
      Some (mkSegRow uid (dict_get "operating_airline" sd) (dict_get "departure" sd)
                     (dict_get "departure_date" sd) (dict_get "arrival" sd)
                     (dict_get "arrival_date" sd) (dict_get "order" sd))
  | _ => None
  end.

(** The rows one loop iteration writes for a ticket dict (already without
    its ['segments'] key) and the popped segment list; [None] when a
    statement of the iteration raises. *)
Definition ticket_write (eng : Engine) (d : dict) (segs : pyval) : option (TicketRow * list SegRow) :=
  uid ← uid_key (dict_get "ticket_uid" d);
  let price := default (PInt 0) (pdict_get "price" d) in
  let row := mkTicketRow uid (dict_get "validating_airline" d) price (dict_get "route_type" d) in
  if negb (decimal_ok price && ticket_ok eng row) then None else
  items ← iter_items segs;
  rows ← mapM (seg_row uid) items;
  if forallb (seg_ok eng) rows then Some (row, rows) else None.

(** [update_or_create(ticket_uid=...)] *)
Definition upsert_ticket (row : TicketRow) (ts : list TicketRow) : list TicketRow :=
  if existsb (fun t => String.eqb (t_uid t) (t_uid row)) ts
  then map (fun t => if String.eqb (t_uid t) (t_uid row) then row else t) ts
  else ts ++ [row].

(** Upsert, [FlightSegment.objects.filter(ticket=...).delete()], then
    [bulk_create]. *)
Definition apply_write (w : TicketRow * list SegRow) (db : DB) : DB :=
  let '(row, rows) := w in
  mkDB (upsert_ticket row (tickets db))
       (List.filter (fun s => negb (String.eqb (s_ticket s) (t_uid row))) (segments db) ++ rows).

(** The loop inside [transaction.atomic()] over the copies: [None] for
    the database when an exception leaves the block. *)
Fixpoint save_loop (eng : Engine) (h : Heap) (db : DB) (copies : list nat) : Heap * option DB :=
  match copies with
  | [] => (h, Some db)
  | l :: r =>
      let '(segs, d') := dict_pop "segments" (PList []) (obj h l) in
      let h1 := set_obj h l d' in
      match ticket_write eng d' segs with
      | Some w => save_loop eng h1 (apply_write w db) r
      | None => (h1, None)
      end
  end.

(** [FlightParser._save_flights_to_db]: the exception is caught and
    printed, and the transaction leaves the database as it was. *)
Definition save_flights_to_db (eng : Engine) (h : Heap) (db : DB) (flights : list nat) : Heap * DB :=
  match flights with
  | [] => (h, db)
  | _ =>
      let '(copies, h1) := deepcopy h ∅ flights in
      let '(h2, r) := save_loop eng h1 db copies in
      (h2, default db r)
  end.

(** The stored segments of a ticket. *)
Definition segs_of (db : DB) (uid : string) : list SegRow :=
  List.filter (fun s => String.eqb (s_ticket s) uid) (segments db).

(* ------------------------------------------------------------------ *)
(** ** URL construction ([FlightParser._construct_search_url]) *)

Definition base_url : string := "https://ctb.business-class.com".

(** [[f(x) for x in xs]] where [f] may raise. *)
Fixpoint map_err {A B E} (f : A -> E + B) (l : list A) : E + list B :=
  match l with
  | [] => inr []
  | x :: r => match f x with
              | inl e => inl e
              | inr y => match map_err f r with inl e => inl e | inr ys => inr (y :: ys) end
              end
  end.

Definition route_of (leg : Leg) : string := origin leg +++ "-" +++ destination leg.

Definition construct_search_url (sd : SearchData) : string + string :=
  let trip_type := determine_trip_type (legs sd) in
  let passengers := z_to_dec (ADT sd) +++ ":" +++ z_to_dec (CNN sd) +++ ":" +++ z_to_dec (INF sd) in
  let cabin_code := cabin sd in
  if String.eqb trip_type "one-way" then
    match legs sd with
    | leg :: _ =>
        match format_date (date leg) with
        | inl e => inl e
        | inr d => inr (base_url +++ "/result/" +++ trip_type +++ "/" +++ route_of leg +++ "/"
                        +++ d +++ "/" +++ cabin_code +++ "/" +++ passengers)
        end
    | [] => inl "list index out of range"
    end
  else if String.eqb trip_type "return" then
    match legs sd with
    | leg1 :: leg2 :: _ =>
        match format_date (date leg1) with
        | inl e => inl e
        | inr d1 =>
            match format_date (date leg2) with
            | inl e => inl e
            | inr d2 =>
                inr (base_url +++ "/result/" +++ trip_type +++ "/" +++ route_of leg1 +++ ":"
                     +++ route_of leg2 +++ "/" +++ d1 +++ ":" +++ d2 +++ "/" +++ cabin_code
                     +++ ":" +++ cabin_code +++ "/" +++ passengers)
            end
        end
    | _ => inl "list index out of range"
    end
  else
    match map_err (fun leg => format_date (date leg)) (legs sd) with
    | inl e => inl e
    | inr dates =>
        inr (base_url +++ "/result/" +++ trip_type +++ "/" +++ join ":" (map route_of (legs sd))
             +++ "/" +++ join ":" dates +++ "/"
             +++ join ":" (map (fun _ => cabin_code) (legs sd)) +++ "/" +++ passengers)
    end.

(* ------------------------------------------------------------------ *)
(** ** The browser pipeline ([FlightParser.run] and [_parse_results]) *)

(** The answers the automated browser gives to the calls [run] makes;
    [Some msg] in an [option string] field is the exception the call raises. *)
Record Browser := mkBrowser {
  b_launch : option string;      (** [chromium.launch], [new_context], [new_page], [add_style_tag] *)
  b_goto_base : option string;   (** [page.goto(base_url)] *)
  b_goto_search : option string; (** [page.goto(search_url)] *)
  b_content : option string;     (** [inner_text] of the element [wait_for_selector]
                                     returns, [None] when it times out *)
  b_scroll : option string;      (** an exception raised inside [_scroll_page] *)
  b_untouched : nat;             (** [len(query_selector_all('.ticket:not(.ticket--expanded)'))] *)
  b_clicked : string + nat;      (** [page.evaluate] of the expanding script *)
  b_expanded : nat;              (** most [.ticket--expanded] cards seen within the 50 s wait *)
  b_wait_timeout : string;       (** the message of the [TimeoutError] [wait_for_function]
                                     raises when those 50 s run out *)
  b_cards : list Card;           (** [page.locator('.ticket:not(.ticket--placeholder)').all()] *)
  b_close : option string        (** [browser.close()] *)
}.

(** [_wait_for_content]: [True] iff the matched element says "best deals";
    a time-out is caught and answered with [False]. *)
Definition wait_for_content (br : Browser) : bool :=
  match b_content br with
  | Some text => str_contains text "best deals"
  | None => false
  end.

(** [_expand_all_tickets]: [Some msg] is the exception it lets through. *)
Definition expand_all_tickets (br : Browser) : option string :=
  if Nat.eqb (b_untouched br) 0 then None
  else match b_clicked br with
       | inl e => Some e
       | inr clicked => if Nat.leb clicked (b_expanded br) then None else Some (b_wait_timeout br)
       end.

(** [_parse_results] *)
Definition parse_results (br : Browser) (sd : SearchData) : string + list pyval :=
  if negb (wait_for_content br) then inr []
  else match b_scroll br with
       | Some e => inl e
       | None =>
           match expand_all_tickets br with
           | Some e => inl e
           | None =>
               match b_cards br with
               | [] => inr []
               | cards => inr (process_chunks cards sd 25)
               end
           end
       end.

Inductive RunResult := RList (ls : list nat) | RText (s : string) | RRaise (msg : string).

Definition no_flights : string := "No flights found matching your search".
Definition error_prefix : string := "Ошибка: ".

Definition as_dict (v : pyval) : dict := match v with PDict kvs => kvs | _ => [] end.

Fixpoint alloc_all (h : Heap) (vs : list pyval) : list nat * Heap :=
  match vs with
  | [] => ([], h)
  | v :: r => let '(l, h1) := alloc h (as_dict v) in
              let '(ls, h2) := alloc_all h1 r in (l :: ls, h2)
  end.

(** The [try] block of [run]. *)
Definition run_body (eng : Engine) (br : Browser) (sd : SearchData) (h : Heap) (db : DB)
  : RunResult * Heap * DB :=
  let nav := match construct_search_url sd with
             | inl e => Some e
             | inr _ => match b_goto_base br with
                        | Some e => Some e
                        | None => b_goto_search br
                        end
             end in
  match nav with
  | Some e => (RText (error_prefix +++ e), h, db)
  | None =>
      match parse_results br sd with
      | inl e => (RText (error_prefix +++ e), h, db)
      | inr flights =>
          if Nat.ltb 0 (length flights) then
            let '(ls, h1) := alloc_all h flights in
            let '(h2, db2) := save_flights_to_db eng h1 db ls in
            (RList ls, h2, db2)
          else (RText no_flights, h, db)
      end
  end.

(** [FlightParser.run]: the launch is outside the [try]; [finally] closes
    the browser, and an exception there replaces the result. *)
Definition run (eng : Engine) (br : Browser) (sd : SearchData) (h : Heap) (db : DB)
  : RunResult * Heap * DB :=
  match b_launch br with
  | Some e => (RRaise e, h, db)
  | None =>
      let '(r, h1, db1) := run_body eng br sd h db in
      match b_close br with
      | Some e => (RRaise e, h1, db1)
      | None => (r, h1, db1)
      end
  end.

(* ------------------------------------------------------------------ *)
(** ** The endpoint ([FlightSearchView.post]) *)

(** Django's cache (one store for the locks and the results; expiry is
    not modelled), the Python heap and the database. *)
Record World := mkWorld { w_cache : gmap string pyval; w_heap : Heap; w_db : DB }.

(** Who is asking: [request.user.id] when authenticated, else the session
    key, and the key [request.session.create()] would produce. *)
Record Ctx := mkCtx { c_user : option Z; c_session : option string; c_new_session : string }.

(** The cache and browser operations [post] performs, in order. *)
Inductive event :=
  | ELockAdd (k : string)      (** [cache.add(lock_id, "true", timeout=60)] *)
  | ELockDelete (k : string)   (** [cache.delete(lock_id)] *)
  | ECacheGet (k : string)     (** [cache.get(cache_key)] *)
  | ECacheSet (k : string)     (** [cache.set(cache_key, ..., timeout=1800)] *)
  | EParserRun.                (** [async_to_sync(parser.run)(search_data)] *)

Record Response := mkResponse { status : Z; body : pyval }.

(** The view returns a response, or an exception leaves it. *)
Inductive PostResult := Returned (r : Response) | Raised (msg : string).

(** Python truthiness of a cached value. *)
Definition truthy (v : pyval) : bool :=
  match v with
  | PNone => false
  | PInt z => negb (z =? 0)
  | PFloat (FNum _ m _) => negb (m =? 0)
  | PFloat _ => true
  | PStr s => negb (String.eqb s EmptyString)
  | PList l => negb (Nat.eqb (length l) 0)
  | PDict d => negb (Nat.eqb (length d) 0)
  end.

Definition lock_id (ctx : Ctx) : string :=
  match c_user ctx with
  | Some id => "lock_" +++ z_to_dec id
  | None => "lock_guest_" +++ default (c_new_session ctx) (c_session ctx)
  end.

Definition busy_detail : string := "Парсинг уже запущен. Пожалуйста, подождите завершения.".

(** The cache-miss path of [post]: run the parser, cache the outcome when
    it is a list or the "no flights" text, release the lock. *)
Definition post_miss (eng : Engine) (br : Browser) (lid key : string) (sd : SearchData)
  (c1 : gmap string pyval) (h : Heap) (db : DB) : PostResult * World * list event :=
  let '(res, h', db') := run eng br sd h db in
  match res with
  | RRaise e => (Raised e, mkWorld c1 h' db', [ELockAdd lid; ECacheGet key; EParserRun])
  | RList ls =>
      let payload := PList (map (fun l => PDict (obj h' l)) ls) in
      (Returned (mkResponse 200 payload), mkWorld (delete lid (<[key := payload]> c1)) h' db',
       [ELockAdd lid; ECacheGet key; EParserRun; ECacheSet key; ELockDelete lid])
  | RText t =>
      if String.eqb t no_flights then
        (Returned (mkResponse 200 (PStr t)), mkWorld (delete lid (<[key := PStr t]> c1)) h' db',
         [ELockAdd lid; ECacheGet key; EParserRun; ECacheSet key; ELockDelete lid])
      else
        (Returned (mkResponse 400 (PDict [("detail", PStr t)])), mkWorld (delete lid c1) h' db',
         [ELockAdd lid; ECacheGet key; EParserRun; ELockDelete lid])
  end.

Definition post (eng : Engine) (br : Browser) (ctx : Ctx) (w : World) (req : jval)
  : PostResult * World * list event :=
  let lid := lock_id ctx in
  if bool_decide (is_Some (w_cache w !! lid)) then
    (Returned (mkResponse 409 (PDict [("detail", PStr busy_detail)])), w, [ELockAdd lid])
  else
    let c1 := <[lid := PStr "true"]> (w_cache w) in
    match validate req with
    | inl errs =>
        (Returned (mkResponse 400 (PDict (map (fun f => (f, PStr "invalid")) errs))),
         mkWorld c1 (w_heap w) (w_db w), [ELockAdd lid])
    | inr sd =>
        let key := generate_cache_key sd in
        let cached := default PNone (c1 !! key) in
        if truthy cached then
          (Returned (mkResponse 200 cached), mkWorld (delete lid c1) (w_heap w) (w_db w),
           [ELockAdd lid; ECacheGet key; ELockDelete lid])
        else post_miss eng br lid key sd c1 (w_heap w) (w_db w)
    end.

(* ================================================================== *)
(** * Concrete configurations used by the witnesses *)

Definition engine_all : Engine := mkEngine (fun _ => true) (fun _ => true).
Definition heap0 : Heap := mkHeap ∅ 0.
Definition db0 : DB := mkDB [] [].
Definition world0 : World := mkWorld ∅ heap0 db0.
Definition ctx_user7 : Ctx := mkCtx (Some 7) None "s1".

(** The message Playwright gives the time-out of [page.wait_for_function]. *)
Definition wait_timeout_msg : string := "Page.wait_for_function: Timeout 50000ms exceeded.".

(** A session in which the browser works and the page lists [cards]. *)
Definition browser_with (content : option string) (cards : list Card) : Browser :=
  mkBrowser None None None content None 0 (inr 0%nat) 0 wait_timeout_msg cards None.

Definition final_text : string := "You got our best deals".

(* ================================================================== *)
(** * Inputs and relations used by the statements below *)

Definition sample_key : string := generate_cache_key (sample_search "2026-01-15").

(** Five cards still collapsed, five toggles clicked, and only three cards
    expanded when the 50 s [wait_for_function] gives up. *)
Definition browser_partial : Browser :=
  mkBrowser None None None (Some final_text) None 5 (inr 5%nat) 3 wait_timeout_msg
            [sample_card "$100" "Thu, Jan 15, 2026"] None.

(** A card yields a non-empty dict: its [evaluate] returns and its price
    text parses as a Python [float]. *)
Definition card_kept (c : Card) : bool :=
  match c with
  | CardEvalError _ => false
  | CardRaw raw => bool_decide (is_Some (py_float (price_text raw)))
  end.

Definition browser_one : Browser := browser_with (Some final_text) [sample_card "$100" "Thu, Jan 15, 2026"].

(** The rows one pass of the loop writes for each dict of [locs], read off
    the dicts themselves; [None] when a statement of some pass raises. *)
Definition batch_writes (eng : Engine) (h : Heap) (locs : list nat)
  : option (list (TicketRow * list SegRow)) :=
  mapM (fun l => let '(segs, d') := dict_pop "segments" (PList []) (obj h l) in
                 ticket_write eng d' segs) locs.

(** The segment rows of the last write in [ws] for ticket [u]. *)
Fixpoint last_write (ws : list (TicketRow * list SegRow)) (u : string) : option (list SegRow) :=
  match ws with
  | [] => None
  | w :: r => match last_write r u with
              | Some s => Some s
              | None => if String.eqb (t_uid (fst w)) u then Some (snd w) else None
              end
  end.

(** Two freshly parsed tickets, and a database still holding two segment
    rows of an earlier scrape of the first one. *)
Definition card_xyz : Card :=
  CardRaw (mkRawTicket "Delta" "Ticket ID XYZ789 Share" "$250" [sample_seg "Thu, Jan 15, 2026"]).

Definition heap_batch : Heap :=
  (alloc_all heap0 (map (fun c => extract_ticket_data c (sample_search "2026-01-15"))
                        [sample_card "$100" "Thu, Jan 15, 2026"; card_xyz])).2.

Definition db_stale : DB :=
  mkDB [mkTicketRow "ABC123" (PStr "Delta") (PInt 90) (PStr "one-way")]
       [mkSegRow "ABC123" (PStr "Old Air") (PStr "JFK") PNone (PStr "BOS") PNone (PInt 0);
        mkSegRow "ABC123" (PStr "Old Air") (PStr "BOS") PNone (PStr "LHR") PNone (PInt 1)].


Fixpoint zseq (lo : Z) (n : nat) : list Z :=
  match n with O => [] | S k => lo :: zseq (lo + 1) k end.


(** Distinct keys in a JSON object. *)
Fixpoint keys_distinct {A} (kvs : list (string * A)) : bool :=
  match kvs with
  | [] => true
  | kv :: r => negb (existsb (fun kv' => String.eqb (fst kv') (fst kv)) r) && keys_distinct r
  end.

Definition jatom_eqb (v w : jval) : bool :=
  match v, w with
  | JNull, JNull => true
  | JBool a, JBool b => Bool.eqb a b
  | JInt a, JInt b => Z.eqb a b
  | JStr a, JStr b => String.eqb a b
  | _, _ => false
  end.

(** Two JSON documents that differ at most in the order of the fields of
    their objects (at any depth); objects have distinct keys. *)
Fixpoint jequiv (v w : jval) {struct v} : bool :=
  match v, w with
  | JList l1, JList l2 =>
      (fix go (l1 l2 : list jval) : bool :=
         match l1, l2 with
         | [], [] => true
         | a :: r, b :: s => jequiv a b && go r s
         | _, _ => false
         end) l1 l2
  | JObj kvs1, JObj kvs2 =>
      keys_distinct kvs1 && keys_distinct kvs2 && Nat.eqb (length kvs1) (length kvs2)
      && (fix go (kvs : list (string * jval)) : bool :=
            match kvs with
            | [] => true
            | (k, a) :: r =>
                match lookup_key k kvs2 with Some b => jequiv a b | None => false end && go r
            end) kvs1
  | _, _ => jatom_eqb v w
  end.

Fixpoint list_equiv (l1 l2 : list jval) : bool :=
  match l1, l2 with
  | [], [] => true
  | a :: r, b :: s => jequiv a b && list_equiv r s
  | _, _ => false
  end.

Definition fields_equiv (kvs1 kvs2 : list (string * jval)) : bool :=
  forallb (fun kv => match lookup_key (fst kv) kvs2 with Some b => jequiv (snd kv) b | None => false end)
          kvs1.

Definition sample_request_reordered (d : string) : jval :=
  JObj [("cabin", JStr "C");
        ("legs", JList [JObj [("date", JStr d); ("origin", JStr "JFK");
                              ("destination", JStr "LHR")]])].

(* ================================================================== *)
(** * Scrolling, date-time fields and cache keys *)

(** [FlightParser._scroll_page]: [reads] are the values
    [page.locator(".ticket").count()] returns after each press of End, in
    order. The result is the number of presses and the last count when
    the loop breaks; [None] when the readings run out first. *)
Fixpoint scroll_loop (reads : list nat) (last_count no_change_counter presses : nat)
  : option (nat * nat) :=
  match reads with
  | [] => None
  | current_count :: rest =>
      if Nat.eqb current_count last_count then
        let nc := S no_change_counter in
        if Nat.leb 3 nc then Some (S presses, current_count)
        else scroll_loop rest last_count nc (S presses)
      else scroll_loop rest current_count 0 (S presses)
  end.

Definition scroll_page (reads : list nat) : option (nat * nat) := scroll_loop reads 0 0 0.

(** Four equal numbers. *)
Definition const4 (l : list nat) : bool :=
  match l with [a; b; c; d] => (a =? b)%nat && (b =? c)%nat && (c =? d)%nat | _ => false end.

Fixpoint first_const4 (l : list nat) : option nat :=
  match l with
  | [] => None
  | _ :: r => if const4 (firstn 4 l) then Some 0%nat else option_map S (first_const4 r)
  end.

(** A text [int()] reads as a number from [lo] to [hi]. *)
Definition int_in (lo hi : Z) (t : list ascii) : bool :=
  match py_int t with Some n => (lo <=? n) && (n <=? hi) | None => false end.

(** The digits [hexdigest] writes. *)
Definition hex_alphabet : list ascii := chars "0123456789abcdef".

(* ================================================================== *)
(** * Trip classification *)

(** C7: one leg gives ['one-way']; two legs whose second leg mirrors the
    first's airports give ['return']; every other leg list (none, two
    unmirrored legs, three or more) gives ['multi-city']. *)
Theorem determine_trip_type_cases (legs : list Leg) :
  (length legs = 1%nat -> determine_trip_type legs = "one-way")
  /\ (forall leg1 leg2, legs = [leg1; leg2] -> destination leg2 = origin leg1 ->
        origin leg2 = destination leg1 -> determine_trip_type legs = "return")
  /\ (length legs <> 1%nat ->
      ~ (exists leg1 leg2, legs = [leg1; leg2] /\ destination leg2 = origin leg1
                           /\ origin leg2 = destination leg1) ->
      determine_trip_type legs = "multi-city").
Proof.
  unfold determine_trip_type. split; [|split].
  - intros ->. reflexivity.
  - intros leg1 leg2 -> H1 H2. simpl. rewrite H1, H2, !String.eqb_refl. reflexivity.
  - intros Hlen Hnot. destruct (Nat.eqb_spec (length legs) 1) as [E|_]; [lia|].
    destruct legs as [|leg1 [|leg2 [|leg3 r]]]; try reflexivity.
    simpl. destruct (String.eqb_spec (origin leg1) (destination leg2)) as [E1|];
      destruct (String.eqb_spec (destination leg1) (origin leg2)) as [E2|]; simpl; try reflexivity.
    exfalso. apply Hnot. exists leg1, leg2. auto.
Qed.

(* ================================================================== *)
(** * The per-requester lock *)

(** C2 (failing input): an authenticated user (id 7) posts the malformed
    body [{}] with the lock free. [post] takes the lock, answers 400 and
    returns without deleting it; the user's next, valid, request is turned
    away with 409 until the lock expires. *)
Theorem post_invalid_request_keeps_lock :
  let '(r, w', tr) := post engine_all (browser_with None []) ctx_user7 world0 (JObj []) in
  r = Returned (mkResponse 400 (PDict [("legs", PStr "invalid")]))
  /\ w_cache w' !! "lock_7" = Some (PStr "true")
  /\ tr = [ELockAdd "lock_7"]
  /\ (let '(r2, _, _) := post engine_all (browser_with None []) ctx_user7 w'
                              (sample_request "2026-01-15") in
      r2 = Returned (mkResponse 409 (PDict [("detail", PStr busy_detail)]))).
Proof. vm_compute. repeat split. Qed.

(** C2 (second exit path): when the browser cannot be launched, [run]
    raises outside its [try]; the exception leaves [post] with the lock
    still stored. *)
Theorem post_launch_failure_keeps_lock :
  let br := mkBrowser (Some "Executable doesn't exist") None None None None 0 (inr 0%nat) 0 wait_timeout_msg [] None in
  let '(r, w', tr) := post engine_all br ctx_user7 world0 (sample_request "2026-01-15") in
  r = Raised "Executable doesn't exist" /\ w_cache w' !! "lock_7" = Some (PStr "true")
  /\ ~ In (ELockDelete "lock_7") tr.
Proof. vm_compute. split; [reflexivity|split; [reflexivity|]]. intros [H|[H|[H|[]]]]; discriminate. Qed.




(* ================================================================== *)
(** * Which outcomes are cached *)

(** C4 (counterexample): the results page never shows its final marker nor
    "nothing found" within the 60 s wait ([wait_for_selector] times out).
    [_wait_for_content] answers [False], [run] reports "No flights found",
    and [post] writes that text to the result cache. *)
Lemma post_content_timeout_cached :
  let br := browser_with None [] in
  wait_for_content br = false
  /\ let '(r, w', tr) := post engine_all br ctx_user7 world0 (sample_request "2026-01-15") in
     r = Returned (mkResponse 200 (PStr no_flights))
     /\ In (ECacheSet sample_key) tr /\ w_cache w' !! sample_key = Some (PStr no_flights).
Proof. vm_compute. split; [reflexivity|]. split; [reflexivity|]. split; [|reflexivity]. right; right; right; left; reflexivity. Qed.

(** The texts [run] returns are the "no flights" text and the caught
    errors ["Ошибка: " + str(e)]. *)
Lemma run_text_cases (eng : Engine) (br : Browser) (sd : SearchData) (h : Heap) (db : DB) (t : string) :
  (run eng br sd h db).1.1 = RText t -> t = no_flights \/ exists e, t = error_prefix +++ e.
Proof.
  unfold run. destruct (b_launch br); [simpl; congruence|].
  destruct (run_body eng br sd h db) as [[r h1] db1] eqn:Hb.
  destruct (b_close br); simpl; [congruence|]. intros ->.
  revert Hb. unfold run_body.
  destruct (match construct_search_url sd with
            | inl e => Some e
            | inr _ => match b_goto_base br with Some e => Some e | None => b_goto_search br end
            end) as [e|].
  - intros [= <- _ _]. right. eauto.
  - destruct (parse_results br sd) as [e|flights].
    + intros [= <- _ _]. right. eauto.
    + destruct (Nat.ltb 0 (length flights)).
      * destruct (alloc_all h flights) as [ls h1'].
        destruct (save_flights_to_db eng h1' db ls). congruence.
      * intros [= <- _ _]. left. reflexivity.
Qed.

(** C4 (amended): [post] writes the result cache only under the search's
    key and only when [run] returned a ticket list or the "no flights"
    text; every other text [run] returns is a caught error
    ["Ошибка: ..."], and an exception out of [run] reaches no [cache.set].
    A content-wait time-out, however, is reported as "no flights" (so it is
    cached like a search with no results). *)
Theorem post_cache_writes (eng : Engine) (br : Browser) (ctx : Ctx) (w : World) (req : jval) :
  (let '(_, _, tr) := post eng br ctx w req in
   forall k, In (ECacheSet k) tr ->
     exists sd, validate req = inr sd /\ k = generate_cache_key sd
       /\ match (run eng br sd (w_heap w) (w_db w)).1.1 with
          | RList _ => True
          | RText t => t = no_flights
          | RRaise _ => False
          end)
  /\ (forall sd h db t, (run eng br sd h db).1.1 = RText t ->
        t = no_flights \/ exists e, t = error_prefix +++ e)
  /\ (forall sd h db url, b_launch br = None -> b_close br = None ->
        construct_search_url sd = inr url -> b_goto_base br = None -> b_goto_search br = None ->
        b_content br = None -> (run eng br sd h db).1.1 = RText no_flights).
Proof.
  split; [|split].
  - unfold post. destruct (bool_decide _).
    { simpl. intros k [H|[]]; discriminate. }
    destruct (validate req) as [errs|sd] eqn:Hv.
    { simpl. intros k [H|[]]; discriminate. }
    destruct (truthy _).
    { simpl. intros k [H|[H|[H|[]]]]; discriminate. }
    unfold post_miss. destruct (run eng br sd (w_heap w) (w_db w)) as [[res h'] db'] eqn:Hr.
    destruct res as [ls|t|e].
    + simpl. intros k Hin. exists sd. rewrite Hr. simpl.
      repeat destruct Hin as [Hin|Hin]; try discriminate; try contradiction.
      injection Hin as <-. auto.
    + destruct (String.eqb_spec t no_flights) as [->|Hne].
      * simpl. intros k Hin. exists sd. rewrite Hr. simpl.
        repeat destruct Hin as [Hin|Hin]; try discriminate; try contradiction.
        injection Hin as <-. auto.
      * simpl. intros k Hin.
        repeat destruct Hin as [Hin|Hin]; try discriminate; contradiction.
    + simpl. intros k Hin. repeat destruct Hin as [Hin|Hin]; try discriminate; contradiction.
  - intros sd h db t. apply run_text_cases.
  - intros sd h db url Hl Hc Hu Hg1 Hg2 Hct. unfold run. rewrite Hl. unfold run_body.
    rewrite Hu, Hg1, Hg2. unfold parse_results, wait_for_content. rewrite Hct. simpl.
    rewrite Hc. reflexivity.
Qed.

(* ================================================================== *)
(** * A partial expansion *)

(** C9 (counterexample): the expansion time-out is not caught in
    [_expand_all_tickets]; [run] answers ["Ошибка: "] followed by the
    time-out's message,
    nothing is extracted or stored, and the endpoint answers 400. *)
Lemma expand_timeout_aborts :
  parse_results browser_partial (sample_search "2026-01-15") = inl wait_timeout_msg
  /\ run engine_all browser_partial (sample_search "2026-01-15") heap0 db0
     = (RText (error_prefix +++ wait_timeout_msg), heap0, db0)
  /\ (let '(r, _, _) := post engine_all browser_partial ctx_user7 world0 (sample_request "2026-01-15") in
      r = Returned (mkResponse 400 (PDict [("detail", PStr (error_prefix +++ wait_timeout_msg))]))).
Proof. vm_compute. split; [reflexivity|]. split; reflexivity. Qed.

(** C9 (amended): when the expanded-card count stays below the number of
    clicked toggles for the whole wait, the time-out leaves
    [_expand_all_tickets] and [_parse_results]; [run] catches it and
    returns the text ["Ошибка: "] followed by the time-out's message: no card is
    extracted, and heap and database are left as they were. *)
Theorem expand_timeout_fatal (eng : Engine) (br : Browser) (sd : SearchData) (h : Heap) (db : DB)
    (url : string) (n : nat)
    (Hlaunch : b_launch br = None) (Hclose : b_close br = None)
    (Hurl : construct_search_url sd = inr url)
    (Hbase : b_goto_base br = None) (Hsearch : b_goto_search br = None)
    (Hcontent : wait_for_content br = true) (Hscroll : b_scroll br = None)
    (Huntouched : b_untouched br <> 0%nat) (Hclicked : b_clicked br = inr n)
    (Hslow : (b_expanded br < n)%nat) :
  parse_results br sd = inl (b_wait_timeout br)
  /\ run eng br sd h db = (RText (error_prefix +++ b_wait_timeout br), h, db).
Proof.
  assert (Hexp : expand_all_tickets br = Some (b_wait_timeout br)).
  { unfold expand_all_tickets. rewrite Hclicked.
    destruct (Nat.eqb_spec (b_untouched br) 0) as [E|_]; [contradiction|].
    destruct (Nat.leb_spec n (b_expanded br)); [lia|reflexivity]. }
  assert (Hp : parse_results br sd = inl (b_wait_timeout br)).
  { unfold parse_results. rewrite Hcontent, Hscroll, Hexp. reflexivity. }
  split; [exact Hp|].
  unfold run. rewrite Hlaunch. unfold run_body. rewrite Hurl, Hbase, Hsearch, Hp.
  rewrite Hclose. reflexivity.
Qed.

Lemma expand_timeout_fatal_witness :
  parse_results browser_partial (sample_search "2026-01-15") = inl wait_timeout_msg
  /\ run engine_all browser_partial (sample_search "2026-01-15") heap0 db0
     = (RText (error_prefix +++ wait_timeout_msg), heap0, db0).
Proof.
  apply (expand_timeout_fatal engine_all browser_partial (sample_search "2026-01-15") heap0 db0
           "https://ctb.business-class.com/result/one-way/JFK-LHR/2026-01-15/C/1:0:0" 5%nat);
    try reflexivity; try vm_compute; try discriminate; try lia.
Defined.

(* ================================================================== *)
(** * Which cards survive extraction *)

Lemma extract_nonempty (c : Card) (sd : SearchData) :
  nonempty_dict (extract_ticket_data c sd) = card_kept c.
Proof.
  destruct c as [e|raw]; [reflexivity|]. unfold extract_ticket_data, card_kept.
  destruct (py_float (price_text raw)) eqn:E.
  - rewrite bool_decide_true; [reflexivity|]. eauto.
  - rewrite bool_decide_false; [reflexivity|]. intros [? ?]; discriminate.
Qed.

Lemma filter_extract (sd : SearchData) (l : list Card) :
  List.filter nonempty_dict (map (fun it => extract_ticket_data it sd) l)
  = map (fun it => extract_ticket_data it sd) (List.filter card_kept l).
Proof.
  induction l as [|c l IH]; [reflexivity|]. simpl.
  rewrite extract_nonempty. destruct (card_kept c); simpl; rewrite IH; reflexivity.
Qed.

(** Processing chunk by chunk equals processing the whole list, for any
    per-chunk work that distributes over concatenation. *)
Lemma chunks_flat_map {A B} (g : list A -> list B)
    (Happ : forall a b, g (a ++ b) = g a ++ g b) (Hnil : g [] = [])
    (fuel k : nat) (l : list A) :
  (0 < k)%nat -> (length l <= fuel)%nat -> flat_map g (chunks fuel k l) = g l.
Proof.
  revert l. induction fuel as [|fuel IH]; intros l Hk Hl.
  - destruct l; simpl in *; [auto|lia].
  - destruct l as [|a l]; simpl; [auto|].
    rewrite IH; [|exact Hk|].
    + rewrite <- Happ. rewrite (List.firstn_skipn k (a :: l)). reflexivity.
    + rewrite List.length_skipn. simpl in *. lia.
Qed.

(** The chunked processing keeps exactly the extracted dicts of the kept
    cards, in order. *)
Lemma process_chunks_kept (items : list Card) (sd : SearchData) (k : nat) :
  (0 < k)%nat ->
  process_chunks items sd k = map (fun it => extract_ticket_data it sd) (List.filter card_kept items).
Proof.
  intros Hk. unfold process_chunks.
  rewrite (chunks_flat_map (fun chunk => List.filter nonempty_dict
                              (map (fun it => extract_ticket_data it sd) chunk))).
  - apply filter_extract.
  - intros a b. rewrite List.map_app. apply List.filter_app.
  - reflexivity.
  - exact Hk.
  - lia.
Qed.

(** C6 (counterexample): the second card's segment date is empty, so
    [_clean_datetime] raises for its only segment; the [continue] drops
    the segment, not the card: two cards in, two results out. *)
Lemma bad_date_card_kept :
  clean_datetime EmptyString "10:30 AM" = None
  /\ length (process_chunks [sample_card "$100" "Thu, Jan 15, 2026"; sample_card "$100" EmptyString]
                            (sample_search "2026-01-15") 25) = 2%nat.
Proof. vm_compute. split; reflexivity. Qed.

(** C6 (amended): for any chunk size, the results are the extracted dicts
    of exactly the cards whose [evaluate] returns and whose price parses,
    in order; no exception leaves the batch. A card with an unparsable
    segment date is kept with that segment left out, and a missing uid or
    airline is kept as [""]. So with exactly one unparsable price among
    [N] cards the batch yields [N - 1] results. *)
Theorem process_chunks_drops_unparsable (items : list Card) (sd : SearchData) (k : nat)
    (Hk : (0 < k)%nat) :
  process_chunks items sd k = map (fun it => extract_ticket_data it sd) (List.filter card_kept items)
  /\ length (process_chunks items sd k) = length (List.filter card_kept items).
Proof.
  pose proof (process_chunks_kept items sd k Hk) as E.
  split; [exact E|]. rewrite E. apply List.length_map.
Qed.

Lemma process_chunks_drops_unparsable_witness :
  process_chunks [sample_card "$100" "Thu, Jan 15, 2026"; sample_card "n/a" "Thu, Jan 15, 2026"]
                 (sample_search "2026-01-15") 25
  = map (fun it => extract_ticket_data it (sample_search "2026-01-15"))
        (List.filter card_kept [sample_card "$100" "Thu, Jan 15, 2026"; sample_card "n/a" "Thu, Jan 15, 2026"])
  /\ length (process_chunks [sample_card "$100" "Thu, Jan 15, 2026"; sample_card "n/a" "Thu, Jan 15, 2026"]
                            (sample_search "2026-01-15") 25)
     = length (List.filter card_kept [sample_card "$100" "Thu, Jan 15, 2026"; sample_card "n/a" "Thu, Jan 15, 2026"]).
Proof. apply process_chunks_drops_unparsable. lia. Defined.

(* ================================================================== *)
(** * The heap during [_save_flights_to_db] *)

(** [deepcopy] only allocates: every copy lies at or above any bound [b]
    below the allocation pointer that the memo's copies respect, and the
    objects below [b] are left as they were. *)
Lemma deepcopy_above (ls : list nat) (h : Heap) (memo : gmap nat nat) (b : nat) :
  (b <= h_next h)%nat -> (forall l c, memo !! l = Some c -> (b <= c)%nat) ->
  let '(cs, h') := deepcopy h memo ls in
  Forall (fun c => (b <= c)%nat) cs /\ (h_next h <= h_next h')%nat
  /\ (forall l, (l < b)%nat -> h_objs h' !! l = h_objs h !! l).
Proof.
  revert h memo. induction ls as [|l r IH]; intros h memo Hb Hm; simpl.
  - repeat split; auto.
  - destruct (memo !! l) as [c|] eqn:El.
    + specialize (IH h memo Hb Hm). destruct (deepcopy h memo r) as [cs h'].
      destruct IH as (H1 & H2 & H3). repeat split; auto. constructor; eauto.
    + unfold alloc. simpl.
      specialize (IH (mkHeap (<[h_next h := obj h l]> (h_objs h)) (S (h_next h)))
                     (<[l := h_next h]> memo)).
      destruct (deepcopy _ _ r) as [cs h'].
      destruct IH as (H1 & H2 & H3).
      * simpl. lia.
      * intros l' c. destruct (decide (l' = l)) as [->|Hne].
        -- rewrite lookup_insert_eq. intros [= <-]. exact Hb.
        -- rewrite lookup_insert_ne by congruence. apply Hm.
      * simpl in H2. repeat split; [constructor; auto|lia|].
        intros l' Hl'. rewrite H3 by exact Hl'. simpl.
        apply lookup_insert_ne. lia.
Qed.

(** The loop writes only the copies and never moves the allocation pointer. *)
Lemma save_loop_above (eng : Engine) (copies : list nat) (h : Heap) (db : DB) (b : nat) :
  Forall (fun c => (b <= c)%nat) copies ->
  h_next (fst (save_loop eng h db copies)) = h_next h
  /\ (forall l, (l < b)%nat -> h_objs (fst (save_loop eng h db copies)) !! l = h_objs h !! l).
Proof.
  revert h db. induction copies as [|c r IH]; intros h db Hc; cbn [save_loop]; [simpl; auto|].
  inversion Hc as [|? ? Hcb Hr]; subst.
  destruct (dict_pop "segments" (PList []) (obj h c)) as [segs d'].
  destruct (ticket_write eng d' segs) as [w|].
  - destruct (IH (set_obj h c d') (apply_write w db) Hr) as [IH1 IH2].
    split; [exact IH1|]. intros l Hl. rewrite IH2 by exact Hl. simpl.
    apply lookup_insert_ne. lia.
  - simpl. split; [reflexivity|]. intros l Hl. apply lookup_insert_ne. lia.
Qed.

(** [_save_flights_to_db] leaves every object that existed before it ran
    as it was: it pops ['segments'] off the deep copies only. *)
Lemma save_flights_keeps_old (eng : Engine) (h : Heap) (db : DB) (locs : list nat) :
  (h_next h <= h_next (fst (save_flights_to_db eng h db locs)))%nat
  /\ (forall l, (l < h_next h)%nat ->
        h_objs (fst (save_flights_to_db eng h db locs)) !! l = h_objs h !! l).
Proof.
  unfold save_flights_to_db. destruct locs as [|l0 r]; [simpl; auto|].
  pose proof (deepcopy_above (l0 :: r) h ∅ (h_next h) (Nat.le_refl _)) as D.
  destruct (deepcopy h ∅ (l0 :: r)) as [cs h1].
  destruct D as (D1 & D2 & D3).
  { intros l c. rewrite lookup_empty. discriminate. }
  pose proof (save_loop_above eng cs h1 db (h_next h) D1) as [S1 S2].
  destruct (save_loop eng h1 db cs) as [h2 res]. simpl in *.
  split; [lia|]. intros l Hl. rewrite S2 by exact Hl. apply D3. exact Hl.
Qed.

(** [alloc_all] puts the dicts at fresh consecutive locations. *)
Lemma alloc_all_spec (vs : list pyval) (h : Heap) :
  let '(ls, h1) := alloc_all h vs in
  ls = seq (h_next h) (length vs) /\ h_next h1 = (h_next h + length vs)%nat
  /\ (forall l, (l < h_next h)%nat -> h_objs h1 !! l = h_objs h !! l)
  /\ Forall2 (fun l v => (l < h_next h1)%nat /\ h_objs h1 !! l = Some (as_dict v)) ls vs.
Proof.
  revert h. induction vs as [|v r IH]; intros h; simpl.
  - repeat split; auto; lia.
  - specialize (IH (mkHeap (<[h_next h := as_dict v]> (h_objs h)) (S (h_next h)))).
    destruct (alloc_all _ r) as [ls h2]. simpl in IH.
    destruct IH as (E1 & E2 & E3 & E4). subst ls.
    repeat split.
    + lia.
    + intros l Hl. rewrite E3 by lia. apply lookup_insert_ne. lia.
    + constructor; [split|exact E4].
      * lia.
      * rewrite E3 by lia. apply lookup_insert_eq.
Qed.

(** Every dict [_parse_results] returns carries its ['segments'] list. *)
Lemma parse_results_segments (br : Browser) (sd : SearchData) (flights : list pyval) :
  parse_results br sd = inr flights ->
  Forall (fun v => exists segs, pdict_get "segments" (as_dict v) = Some (PList segs)) flights.
Proof.
  unfold parse_results.
  destruct (negb (wait_for_content br)); [intros [= <-]; constructor|].
  destruct (b_scroll br); [discriminate|].
  destruct (expand_all_tickets br); [discriminate|].
  destruct (b_cards br) as [|c cs] eqn:Ec; [intros [= <-]; constructor|].
  intros [= <-]. rewrite process_chunks_kept by lia.
  apply List.Forall_forall. intros v Hv. apply in_map_iff in Hv as (card & <- & Hin).
  apply List.filter_In in Hin as [_ Hk].
  destruct card as [e|raw]; [discriminate|]. unfold card_kept in Hk.
  apply bool_decide_eq_true in Hk as [p Hp].
  unfold extract_ticket_data. rewrite Hp. eexists. reflexivity.
Qed.

(** C10: when [run] returns a list, each dict it points to is, in the heap
    [run] leaves (the one [post] reads to answer and to fill the cache),
    exactly the dict [_parse_results] built, nested ['segments'] list
    included: [_save_flights_to_db] only mutated its deep copies. *)
Theorem run_payload_keeps_segments (eng : Engine) (br : Browser) (sd : SearchData) (h : Heap)
    (db : DB) (ls : list nat) (h' : Heap) (db' : DB)
    (Hrun : run eng br sd h db = (RList ls, h', db')) :
  exists flights, parse_results br sd = inr flights
    /\ Forall2 (fun l v => obj h' l = as_dict v) ls flights
    /\ Forall (fun l => exists segs, pdict_get "segments" (obj h' l) = Some (PList segs)) ls.
Proof.
  revert Hrun. unfold run. destruct (b_launch br); [congruence|].
  destruct (run_body eng br sd h db) as [[r h1] db1] eqn:Hb.
  destruct (b_close br); [congruence|]. intros [= -> -> ->].
  revert Hb. unfold run_body.
  destruct (match construct_search_url sd with
            | inl e => Some e
            | inr _ => match b_goto_base br with Some e => Some e | None => b_goto_search br end
            end); [congruence|].
  destruct (parse_results br sd) as [e|flights] eqn:Hp; [congruence|].
  destruct (Nat.ltb 0 (length flights)); [|congruence].
  pose proof (alloc_all_spec flights h) as A.
  destruct (alloc_all h flights) as [ls0 h2].
  destruct A as (_ & _ & _ & A4).
  pose proof (save_flights_keeps_old eng h2 db ls0) as [_ K].
  destruct (save_flights_to_db eng h2 db ls0) as [h3 db3]. simpl in K.
  intros [= <- <- <-].
  assert (F : Forall2 (fun l v => obj h3 l = as_dict v) ls0 flights).
  { eapply Forall2_impl; [exact A4|]. intros l v [Hl Hv].
    unfold obj. rewrite K by exact Hl. rewrite Hv. reflexivity. }
  exists flights. split; [reflexivity|]. split; [exact F|].
  pose proof (parse_results_segments br sd flights Hp) as P.
  clear - F P. induction F; constructor; inversion P; subst; auto.
  rewrite H. assumption.
Qed.

Lemma run_payload_keeps_segments_witness :
  run engine_all browser_one (sample_search "2026-01-15") heap0 db0
  = (RList [0%nat], (run engine_all browser_one (sample_search "2026-01-15") heap0 db0).1.2,
     (run engine_all browser_one (sample_search "2026-01-15") heap0 db0).2)
  /\ exists flights, parse_results browser_one (sample_search "2026-01-15") = inr flights
    /\ Forall2 (fun l v => obj (run engine_all browser_one (sample_search "2026-01-15") heap0 db0).1.2 l
                          = as_dict v) [0%nat] flights
    /\ Forall (fun l => exists segs,
                 pdict_get "segments" (obj (run engine_all browser_one (sample_search "2026-01-15") heap0 db0).1.2 l)
                 = Some (PList segs)) [0%nat].
Proof.
  assert (E : run engine_all browser_one (sample_search "2026-01-15") heap0 db0
              = (RList [0%nat], (run engine_all browser_one (sample_search "2026-01-15") heap0 db0).1.2,
                 (run engine_all browser_one (sample_search "2026-01-15") heap0 db0).2))
    by (vm_compute; reflexivity).
  split; [exact E|].
  exact (run_payload_keeps_segments engine_all browser_one (sample_search "2026-01-15") heap0 db0
           [0%nat] _ _ E).
Defined.

(* ================================================================== *)
(** * Re-saving a batch *)

Lemma Forall2_with_l {A B} (P : A -> Prop) (R S : A -> B -> Prop) (l : list A) (k : list B) :
  Forall P l -> Forall2 R l k -> (forall a b, P a -> R a b -> S a b) -> Forall2 S l k.
Proof.
  intros HP HR HS. induction HR as [|a b l k Hab _ IH]; constructor.
  - inversion HP; subst. auto.
  - inversion HP; subst. auto.
Qed.

Lemma Forall2_compose {A B C} (R : A -> B -> Prop) (S : A -> C -> Prop) (T : B -> C -> Prop)
    (l1 : list A) (l2 : list B) (l3 : list C) :
  Forall2 R l1 l2 -> Forall2 S l1 l3 -> (forall a b c, R a b -> S a c -> T b c) -> Forall2 T l2 l3.
Proof.
  intros H1. revert l3. induction H1 as [|a b l1 l2 Hab _ IH]; intros l3 H2 HT;
    inversion H2; subst; constructor; eauto.
Qed.

(** With no object visited twice, [deepcopy] gives each dict its own
    fresh copy. *)
Lemma deepcopy_nodup (ls : list nat) (h : Heap) (memo : gmap nat nat) :
  NoDup ls -> Forall (fun l => memo !! l = None /\ (l < h_next h)%nat) ls ->
  let '(cs, h') := deepcopy h memo ls in
  cs = seq (h_next h) (length ls)
  /\ (forall l, (l < h_next h)%nat -> h_objs h' !! l = h_objs h !! l)
  /\ Forall2 (fun l c => h_objs h' !! c = Some (obj h l)) ls cs.
Proof.
  revert h memo. induction ls as [|l r IH]; intros h memo Hnd Hf; simpl; [auto|].
  inversion Hnd as [|? ? Hnin Hnd']; subst.
  inversion Hf as [|? ? [Hm Hl] Hf']; subst.
  rewrite Hm. unfold alloc. simpl.
  specialize (IH (mkHeap (<[h_next h := obj h l]> (h_objs h)) (S (h_next h)))
                 (<[l := h_next h]> memo) Hnd').
  destruct (deepcopy _ _ r) as [cs h'].
  destruct IH as (E1 & E2 & E3).
  { apply List.Forall_forall. intros l' Hin.
    eapply List.Forall_forall in Hf'; [|exact Hin]. destruct Hf' as [Hm' Hl'].
    assert (l' <> l) by (intros ->; apply Hnin; apply list_elem_of_In; exact Hin).
    split; [rewrite lookup_insert_ne by congruence; exact Hm'|simpl; lia]. }
  simpl in E1, E2. subst cs. split; [reflexivity|split].
  - intros l' Hl'. rewrite E2 by lia. apply lookup_insert_ne. lia.
  - constructor.
    + rewrite E2 by lia. apply lookup_insert_eq.
    + eapply Forall2_with_l; [exact Hf'|exact E3|]. intros l' c [_ Hl'] Hc. rewrite Hc.
      unfold obj. simpl. rewrite lookup_insert_ne by lia. reflexivity.
Qed.

Lemma obj_of (h : Heap) (l : nat) (d : dict) : h_objs h !! l = Some d -> obj h l = d.
Proof. intros H. exact (f_equal (default []) H). Qed.

(** The loop applies, in order, the writes of its copies' dicts. *)
Lemma save_loop_writes (eng : Engine) (cs : list nat) (h : Heap) (db : DB)
    (ws : list (TicketRow * list SegRow)) :
  NoDup cs ->
  Forall2 (fun c w => (let '(segs, d') := dict_pop "segments" (PList []) (obj h c) in
                       ticket_write eng d' segs) = Some w) cs ws ->
  snd (save_loop eng h db cs) = Some (fold_left (fun db w => apply_write w db) ws db).
Proof.
  revert h db ws. induction cs as [|c r IH]; intros h db ws Hnd Hf.
  - inversion Hf; subst. reflexivity.
  - inversion Hf as [|? w ? ws' Hc Hr]; subst.
    inversion Hnd as [|? ? Hnin Hnd']; subst.
    cbn [save_loop]. destruct (dict_pop "segments" (PList []) (obj h c)) as [segs d'].
    rewrite Hc. simpl. apply IH; [exact Hnd'|].
    eapply Forall2_with_l with (P := fun c' => c' <> c); [| exact Hr |].
    + apply List.Forall_forall. intros c' Hin ->. apply Hnin. apply list_elem_of_In. exact Hin.
    + intros c' w' Hne Hw'. unfold obj, set_obj. simpl. rewrite lookup_insert_ne by congruence.
      exact Hw'.
Qed.

Lemma ticket_write_rows (eng : Engine) (d : dict) (segs : pyval) (row : TicketRow) (rows : list SegRow) :
  ticket_write eng d segs = Some (row, rows) -> Forall (fun s => s_ticket s = t_uid row) rows.
Proof.
  unfold ticket_write. destruct (uid_key (dict_get "ticket_uid" d)) as [uid|]; simpl; [|discriminate].
  destruct (negb _); [discriminate|].
  destruct (iter_items segs) as [items|]; simpl; [|discriminate].
  destruct (mapM (seg_row uid) items) as [rows'|] eqn:Em; simpl; [|discriminate].
  destruct (forallb (seg_ok eng) rows'); [|discriminate].
  intros [= <- <-]. simpl. apply mapM_Some in Em.
  induction Em as [|x y l k Hxy _ IHm]; constructor; [|exact IHm].
  destruct x; simpl in Hxy; try discriminate. injection Hxy as <-. reflexivity.
Qed.

Lemma batch_rows_ok (eng : Engine) (h : Heap) (locs : list nat) (ws : list (TicketRow * list SegRow)) :
  batch_writes eng h locs = Some ws ->
  Forall (fun w => Forall (fun s => s_ticket s = t_uid (fst w)) (snd w)) ws.
Proof.
  unfold batch_writes. intros Hm. apply mapM_Some in Hm.
  induction Hm as [|l [row rows] ls ws Hl _ IHm]; constructor; [|exact IHm].
  destruct (dict_pop "segments" (PList []) (obj h l)) as [segs d'].
  exact (ticket_write_rows eng d' segs row rows Hl).
Qed.

Lemma segs_of_apply (row : TicketRow) (rows : list SegRow) (db : DB) (u : string) :
  Forall (fun s => s_ticket s = t_uid row) rows ->
  segs_of (apply_write (row, rows) db) u = if String.eqb (t_uid row) u then rows else segs_of db u.
Proof.
  intros Hr. unfold segs_of, apply_write. simpl. rewrite List.filter_app.
  destruct (String.eqb_spec (t_uid row) u) as [<-|Hne].
  - assert (E : List.filter (fun s => String.eqb (s_ticket s) (t_uid row))
                  (List.filter (fun s => negb (String.eqb (s_ticket s) (t_uid row))) (segments db)) = []).
    { induction (segments db) as [|s l IHl]; [reflexivity|]. simpl.
      destruct (String.eqb (s_ticket s) (t_uid row)) eqn:Es; simpl; [exact IHl|].
      rewrite Es. exact IHl. }
    rewrite E. simpl. induction Hr as [|s l Hs _ IHr]; [reflexivity|]. simpl.
    rewrite Hs, String.eqb_refl. f_equal. exact IHr.
  - assert (E : List.filter (fun s => String.eqb (s_ticket s) u) rows = []).
    { induction Hr as [|s l Hs _ IHr]; [reflexivity|]. simpl. rewrite Hs.
      destruct (String.eqb_spec (t_uid row) u); [contradiction|exact IHr]. }
    rewrite E, app_nil_r. induction (segments db) as [|s l IHl]; [reflexivity|]. simpl.
    destruct (String.eqb_spec (s_ticket s) (t_uid row)) as [Es|Es]; simpl.
    + destruct (String.eqb_spec (s_ticket s) u); [congruence|exact IHl].
    + destruct (String.eqb (s_ticket s) u); [f_equal|]; exact IHl.
Qed.

Lemma segs_of_fold (ws : list (TicketRow * list SegRow)) (db : DB) (u : string) :
  Forall (fun w => Forall (fun s => s_ticket s = t_uid (fst w)) (snd w)) ws ->
  segs_of (fold_left (fun db w => apply_write w db) ws db) u = default (segs_of db u) (last_write ws u).
Proof.
  revert db. induction ws as [|[row rows] r IH]; intros db Hw; [reflexivity|].
  inversion Hw as [|? ? Hrow Hr]; subst. cbn [fold_left last_write]. rewrite IH by exact Hr.
  destruct (last_write r u); cbn [default fst snd]; [reflexivity|].
  rewrite segs_of_apply by exact Hrow. destruct (String.eqb (t_uid row) u); reflexivity.
Qed.

(** One save of a batch whose every pass succeeds: each ticket of the
    batch keeps exactly the segment rows of its last dict in the batch,
    the other tickets keep theirs. *)
Lemma save_flights_segs (eng : Engine) (h : Heap) (db : DB) (locs : list nat)
    (ws : list (TicketRow * list SegRow)) :
  NoDup locs -> Forall (fun l => (l < h_next h)%nat) locs -> batch_writes eng h locs = Some ws ->
  forall u, segs_of (save_flights_to_db eng h db locs).2 u = default (segs_of db u) (last_write ws u).
Proof.
  intros Hnd Hlive Hw u. pose proof (batch_rows_ok eng h locs ws Hw) as Hok.
  unfold save_flights_to_db. destruct locs as [|l0 r].
  - simpl in Hw. injection Hw as <-. reflexivity.
  - pose proof (deepcopy_nodup (l0 :: r) h ∅ Hnd) as D.
    destruct (deepcopy h ∅ (l0 :: r)) as [cs h1].
    destruct D as (E1 & _ & E3).
    { eapply Forall_impl; [exact Hlive|]. intros l Hl. split; [apply lookup_empty|exact Hl]. }
    assert (SL : snd (save_loop eng h1 db cs) = Some (fold_left (fun db w => apply_write w db) ws db)).
    { apply save_loop_writes.
      - rewrite E1. apply NoDup_seq.
      - unfold batch_writes in Hw. apply mapM_Some in Hw.
        eapply Forall2_compose; [exact E3|exact Hw|]. intros l c w Hc Hlw.
        rewrite (obj_of h1 c _ Hc). exact Hlw. }
    destruct (save_loop eng h1 db cs) as [h2 res]. simpl in SL. subst res. simpl.
    apply segs_of_fold. exact Hok.
Qed.

Lemma batch_writes_ext (eng : Engine) (h h' : Heap) (locs : list nat) :
  Forall (fun l => obj h' l = obj h l) locs -> batch_writes eng h' locs = batch_writes eng h locs.
Proof.
  unfold batch_writes. intros H. induction H as [|l r Hl _ IH]; [reflexivity|].
  cbn [mapM]. rewrite Hl, IH. reflexivity.
Qed.

(** C5: for a batch of distinct dicts on which every loop pass succeeds,
    one save leaves each ticket of the batch with exactly the segment rows
    of its last dict in the batch (the earlier rows of that ticket are
    deleted first) and every other ticket with its own; saving the same
    batch again, from the heap and database the first save left, leaves
    every ticket's segment rows as they were. *)
Theorem save_flights_resave_idempotent (eng : Engine) (h : Heap) (db : DB) (locs : list nat)
    (ws : list (TicketRow * list SegRow))
    (Hnd : NoDup locs) (Hlive : Forall (fun l => (l < h_next h)%nat) locs)
    (Hw : batch_writes eng h locs = Some ws) :
  let '(h1, db1) := save_flights_to_db eng h db locs in
  (forall u, segs_of db1 u = default (segs_of db u) (last_write ws u))
  /\ (forall u, segs_of (save_flights_to_db eng h1 db1 locs).2 u = segs_of db1 u).
Proof.
  pose proof (save_flights_segs eng h db locs ws Hnd Hlive Hw) as S1.
  pose proof (save_flights_keeps_old eng h db locs) as [K1 K2].
  destruct (save_flights_to_db eng h db locs) as [h1 db1]. simpl in S1, K1, K2.
  split; [exact S1|]. intros u.
  assert (Hw' : batch_writes eng h1 locs = Some ws).
  { rewrite <- Hw. apply batch_writes_ext.
    eapply Forall_impl; [exact Hlive|]. intros l Hl. unfold obj. rewrite K2 by exact Hl. reflexivity. }
  assert (Hlive' : Forall (fun l => (l < h_next h1)%nat) locs).
  { eapply Forall_impl; [exact Hlive|]. intros l Hl. simpl in Hl. lia. }
  rewrite (save_flights_segs eng h1 db1 locs ws Hnd Hlive' Hw' u).
  destruct (last_write ws u) as [rows|] eqn:E; simpl; [|reflexivity].
  rewrite S1, E. reflexivity.
Qed.

Lemma save_flights_resave_idempotent_witness :
  let '(h1, db1) := save_flights_to_db engine_all heap_batch db_stale [0%nat; 1%nat] in
  (forall u, segs_of db1 u = default (segs_of db_stale u)
                                     (last_write (default [] (batch_writes engine_all heap_batch [0%nat; 1%nat])) u))
  /\ (forall u, segs_of (save_flights_to_db engine_all h1 db1 [0%nat; 1%nat]).2 u = segs_of db1 u).
Proof.
  apply (save_flights_resave_idempotent engine_all heap_batch db_stale [0%nat; 1%nat]
           (default [] (batch_writes engine_all heap_batch [0%nat; 1%nat]))).
  - apply (bool_decide_unpack _). vm_compute. reflexivity.
  - constructor; [vm_compute; lia|constructor; [vm_compute; lia|constructor]].
  - vm_compute. reflexivity.
Defined.

(* ================================================================== *)
(** * Date normalisation *)

Lemma in_zseq (n : nat) (lo x : Z) : lo <= x < lo + Z.of_nat n -> In x (zseq lo n).
Proof.
  revert lo. induction n as [|n IH]; intros lo H; simpl; [lia|].
  destruct (Z.eq_dec lo x) as [E|E]; [left; exact E|right; apply IH; lia].
Qed.














Lemma forallb_zseq (P : Z -> bool) (lo : Z) (n : nat) (x : Z) :
  forallb P (zseq lo n) = true -> lo <= x < lo + Z.of_nat n -> P x = true.
Proof.
  intros H Hx. apply List.forallb_forall with (x := x) in H; [exact H|]. apply in_zseq. exact Hx.
Qed.









Lemma convert_valid (g : groups) (dt : datetime) :
  convert g = Some dt -> valid_ymd (dt_year dt) (dt_month dt) (dt_day dt) = true.
Proof.
  unfold convert. intros H.
  destruct (int_group "Y" 1900 g) as [y|]; cbv [mbind option_bind] in H; [|discriminate H].
  destruct (match group "b" g with
            | Some t => index_of t month_abbr 1
            | None => int_group "m" 1 g
            end) as [m|]; cbv [mbind option_bind] in H; [|discriminate H].
  destruct (int_group "d" 1 g) as [d|]; cbv [mbind option_bind] in H; [|discriminate H].
  destruct (int_group "I" 0 g) as [hh|]; cbv [mbind option_bind] in H; [|discriminate H].
  destruct (int_group "M" 0 g) as [mi|]; cbv [mbind option_bind] in H; [|discriminate H].
  destruct (valid_ymd y m d) eqn:V; [|discriminate H]. injection H as <-. exact V.
Qed.














(* ================================================================== *)
(** * The cache key and the request's spelling *)

Lemma jequiv_list (l1 l2 : list jval) : jequiv (JList l1) (JList l2) = list_equiv l1 l2.
Proof.
  revert l2. induction l1 as [|a r IH]; intros [|b s]; simpl; try reflexivity.
Qed.

Lemma jequiv_obj (kvs1 kvs2 : list (string * jval)) :
  jequiv (JObj kvs1) (JObj kvs2)
  = keys_distinct kvs1 && keys_distinct kvs2 && Nat.eqb (length kvs1) (length kvs2)
    && fields_equiv kvs1 kvs2.
Proof.
  simpl. f_equal. unfold fields_equiv. induction kvs1 as [|[k a] r IH]; simpl; [reflexivity|].
  f_equal. exact IH.
Qed.

(** Related documents have the same shape; related scalars are equal. *)
Lemma jequiv_shape (v w : jval) :
  jequiv v w = true ->
  v = w \/ (exists l1 l2, v = JList l1 /\ w = JList l2)
  \/ (exists k1 k2, v = JObj k1 /\ w = JObj k2).
Proof.
  destruct v as [|b|z|s|l|kvs], w as [|b'|z'|s'|l'|kvs']; simpl; try discriminate; intros H.
  - left. reflexivity.
  - left. apply Bool.eqb_prop in H. subst. reflexivity.
  - left. apply Z.eqb_eq in H. subst. reflexivity.
  - left. apply String.eqb_eq in H. subst. reflexivity.
  - right. left. eauto.
  - right. right. eauto.
Qed.

Lemma keys_distinct_nodup {A} (kvs : list (string * A)) :
  keys_distinct kvs = true -> List.NoDup (map fst kvs).
Proof.
  induction kvs as [|[k a] r IH]; simpl; intros H; [constructor|].
  apply andb_true_iff in H as [H1 H2]. constructor; [|exact (IH H2)].
  apply negb_true_iff in H1. intros Hin.
  apply in_map_iff in Hin as ([k' a'] & Hk & Hin). simpl in Hk. subst k'.
  assert (E : existsb (fun kv' => String.eqb (fst kv') k) r = true).
  { apply List.existsb_exists. exists (k, a'). split; [exact Hin|apply String.eqb_refl]. }
  simpl in H1. congruence.
Qed.

Lemma lookup_some_in (k : string) (kvs : list (string * jval)) (a : jval) :
  lookup_key k kvs = Some a -> In (k, a) kvs.
Proof.
  unfold lookup_key. destruct (find _ kvs) as [[k' a']|] eqn:E; [|discriminate].
  intros [= <-]. apply find_some in E as [Hin Hk]. simpl in Hk.
  apply String.eqb_eq in Hk. subst. exact Hin.
Qed.

Lemma lookup_none (k : string) (kvs : list (string * jval)) :
  lookup_key k kvs = None -> ~ In k (map fst kvs).
Proof.
  unfold lookup_key. destruct (find _ kvs) eqn:E; [discriminate|]. intros _ Hin.
  apply in_map_iff in Hin as ([k' a'] & Hk & Hin). simpl in Hk. subst k'.
  apply (find_none _ _ E) in Hin. simpl in Hin. rewrite String.eqb_refl in Hin. discriminate.
Qed.

Lemma fields_in (kvs1 kvs2 : list (string * jval)) (k : string) (a : jval) :
  fields_equiv kvs1 kvs2 = true -> In (k, a) kvs1 ->
  exists b, lookup_key k kvs2 = Some b /\ jequiv a b = true.
Proof.
  unfold fields_equiv. intros H Hin.
  apply List.forallb_forall with (x := (k, a)) in H; [|exact Hin]. simpl in H.
  destruct (lookup_key k kvs2); [eauto|discriminate].
Qed.

(** Related objects answer every [dict.get] alike. *)
Lemma jequiv_lookup (kvs1 kvs2 : list (string * jval)) (k : string) :
  jequiv (JObj kvs1) (JObj kvs2) = true ->
  (lookup_key k kvs1 = None /\ lookup_key k kvs2 = None)
  \/ exists a b, lookup_key k kvs1 = Some a /\ lookup_key k kvs2 = Some b /\ jequiv a b = true.
Proof.
  rewrite jequiv_obj. intros H.
  apply andb_true_iff in H as [H F]. apply andb_true_iff in H as [H L].
  apply andb_true_iff in H as [D1 D2]. apply Nat.eqb_eq in L.
  destruct (lookup_key k kvs1) as [a|] eqn:E1.
  - right. destruct (fields_in kvs1 kvs2 k a F (lookup_some_in _ _ _ E1)) as (b & Eb & J). eauto.
  - left. split; [reflexivity|]. destruct (lookup_key k kvs2) as [b|] eqn:E2; [|reflexivity].
    exfalso.
    assert (Inc : incl (map fst kvs2) (map fst kvs1)).
    { apply List.NoDup_length_incl.
      - apply keys_distinct_nodup. exact D1.
      - rewrite !List.length_map. lia.
      - intros k' Hk'. apply in_map_iff in Hk' as ([k'' a'] & Hk & Hin). simpl in Hk. subst k''.
        destruct (fields_in _ _ _ _ F Hin) as (b' & Eb' & _).
        apply in_map_iff. exists (k', b'). split; [reflexivity|]. exact (lookup_some_in _ _ _ Eb'). }
    apply (lookup_none _ _ E1). apply Inc. apply in_map_iff. exists (k, b).
    split; [reflexivity|]. exact (lookup_some_in _ _ _ E2).
Qed.

Lemma jequiv_char (m : Z) (v w : jval) : jequiv v w = true -> char_field m v = char_field m w.
Proof. intros H. destruct (jequiv_shape v w H) as [->|[(? & ? & -> & ->)|(? & ? & -> & ->)]]; reflexivity. Qed.

Lemma jequiv_int (v w : jval) : jequiv v w = true -> integer_field v = integer_field w.
Proof. intros H. destruct (jequiv_shape v w H) as [->|[(? & ? & -> & ->)|(? & ? & -> & ->)]]; reflexivity. Qed.

Lemma jequiv_cabin (v w : jval) : jequiv v w = true -> cabin_field v = cabin_field w.
Proof. intros H. destruct (jequiv_shape v w H) as [->|[(? & ? & -> & ->)|(? & ? & -> & ->)]]; reflexivity. Qed.

Lemma lookup_equiv {A} (f : jval -> option A) (kvs1 kvs2 : list (string * jval)) (k : string) :
  (forall v w, jequiv v w = true -> f v = f w) -> jequiv (JObj kvs1) (JObj kvs2) = true ->
  (o ← lookup_key k kvs1; f o) = (o ← lookup_key k kvs2; f o)
  /\ forall d, with_default f d (lookup_key k kvs1) = with_default f d (lookup_key k kvs2).
Proof.
  intros Hf H. destruct (jequiv_lookup kvs1 kvs2 k H) as [[-> ->]|(a & b & -> & -> & J)].
  - split; reflexivity.
  - simpl. split; [apply Hf; exact J|intros; apply Hf; exact J].
Qed.

Lemma leg_field_equiv (v w : jval) : jequiv v w = true -> leg_field v = leg_field w.
Proof.
  intros H. destruct (jequiv_shape v w H) as [->|[(? & ? & -> & ->)|(k1 & k2 & -> & ->)]];
    try reflexivity.
  unfold leg_field.
  rewrite (proj1 (lookup_equiv (char_field 10) k1 k2 "origin" (jequiv_char 10) H)).
  rewrite (proj1 (lookup_equiv (char_field 10) k1 k2 "destination" (jequiv_char 10) H)).
  rewrite (proj1 (lookup_equiv (char_field 20) k1 k2 "date" (jequiv_char 20) H)).
  reflexivity.
Qed.

Lemma mapM_leg_equiv (l1 l2 : list jval) :
  list_equiv l1 l2 = true -> mapM leg_field l1 = mapM leg_field l2.
Proof.
  revert l2. induction l1 as [|a r IH]; intros [|b s]; simpl; try discriminate; [reflexivity|].
  intros H. apply andb_true_iff in H as [H1 H2].
  rewrite (leg_field_equiv a b H1), (IH s H2). reflexivity.
Qed.

Lemma legs_field_equiv (kvs1 kvs2 : list (string * jval)) :
  jequiv (JObj kvs1) (JObj kvs2) = true ->
  legs_field (lookup_key "legs" kvs1) = legs_field (lookup_key "legs" kvs2).
Proof.
  intros H. destruct (jequiv_lookup kvs1 kvs2 "legs" H) as [[-> ->]|(a & b & -> & -> & J)];
    [reflexivity|].
  destruct (jequiv_shape a b J) as [->|[(l1 & l2 & -> & ->)|(? & ? & -> & ->)]]; try reflexivity.
  simpl. rewrite jequiv_list in J. apply mapM_leg_equiv. exact J.
Qed.

(** The validator reads a request through [dict.get] only, so the order of
    the fields does not matter to it. *)
Lemma validate_equiv (r1 r2 : jval) : jequiv r1 r2 = true -> validate r1 = validate r2.
Proof.
  intros H. destruct (jequiv_shape r1 r2 H) as [->|[(? & ? & -> & ->)|(k1 & k2 & -> & ->)]];
    try reflexivity.
  unfold validate.
  rewrite (legs_field_equiv k1 k2 H).
  rewrite (proj2 (lookup_equiv integer_field k1 k2 "ADT" jequiv_int H)).
  rewrite (proj2 (lookup_equiv integer_field k1 k2 "CNN" jequiv_int H)).
  rewrite (proj2 (lookup_equiv integer_field k1 k2 "INF" jequiv_int H)).
  rewrite (proj2 (lookup_equiv cabin_field k1 k2 "cabin" jequiv_cabin H)).
  reflexivity.
Qed.

(** C1: the key is not computed from a normalised request.
    ["01/15/2026"] and ["2026-01-15"] name the same day, and [_format_date]
    maps both to ["2026-01-15"]. But the leg date is hashed as the client
    spelled it, so the two requests get different cache keys. *)
Lemma cache_key_date_spelling :
  format_date "01/15/2026" = inr "2026-01-15" /\ format_date "2026-01-15" = inr "2026-01-15"
  /\ request_cache_key (sample_request "01/15/2026")
     = Some "flights_search_5a743537a01d9a3dbd53a052488453e2"
  /\ request_cache_key (sample_request "2026-01-15")
     = Some "flights_search_978c2aa756499697e954db84b2a8ffe8".
Proof. vm_compute. repeat split. Qed.

(** Two requests that differ only in the order of their fields, at any
    depth, get the same cache key: the key is computed from the validated
    data, whose dump sorts the keys. *)
Theorem cache_key_field_order (r1 r2 : jval) (H : jequiv r1 r2 = true) :
  request_cache_key r1 = request_cache_key r2.
Proof. unfold request_cache_key. rewrite (validate_equiv r1 r2 H). reflexivity. Qed.

Lemma cache_key_field_order_witness :
  jequiv (sample_request "2026-01-15") (sample_request_reordered "2026-01-15") = true
  /\ request_cache_key (sample_request "2026-01-15")
     = request_cache_key (sample_request_reordered "2026-01-15").
Proof.
  assert (H : jequiv (sample_request "2026-01-15") (sample_request_reordered "2026-01-15") = true)
    by (vm_compute; reflexivity).
  split; [exact H|]. exact (cache_key_field_order _ _ H).
Defined.

(* ================================================================== *)
(** * Scrolling *)

Lemma const4_true (l : list nat) : const4 l = true -> exists a, l = [a; a; a; a].
Proof.
  destruct l as [|a [|b [|c [|d [|e l]]]]]; simpl; try discriminate.
  intros H. apply andb_true_iff in H as [H H3]. apply andb_true_iff in H as [H1 H2].
  apply Nat.eqb_eq in H1, H2, H3. subst. eauto.
Qed.

Lemma first_const4_spec (l : list nat) (i : nat) :
  first_const4 l = Some i <->
  const4 (firstn 4 (skipn i l)) = true /\ forall j, (j < i)%nat -> const4 (firstn 4 (skipn j l)) = false.
Proof.
  revert i. induction l as [|x r IH]; intros i.
  - simpl. split; [discriminate|]. intros [H _]. rewrite skipn_nil in H. discriminate.
  - cbn [first_const4]. destruct (const4 (firstn 4 (x :: r))) eqn:E.
    + split.
      * intros [= <-]. split; [exact E|]. intros j Hj. lia.
      * intros [H1 H2]. destruct i as [|i]; [reflexivity|].
        pose proof (H2 0%nat ltac:(lia)) as H0. cbn [skipn] in H0. congruence.
    + split.
      * case_eq (first_const4 r); [intros i' Er|intros _; discriminate]. simpl.
        intros [= <-]. apply IH in Er as [H1 H2]. split; [exact H1|].
        intros [|j] Hj; [exact E|]. apply H2. lia.
      * intros [H1 H2]. destruct i as [|i]; [cbn [skipn] in H1; congruence|].
        assert (Er : first_const4 r = Some i).
        { apply IH. split; [exact H1|]. intros j Hj. apply (H2 (S j)). lia. }
        rewrite Er. reflexivity.
Qed.

Lemma first_const4_none (l : list nat) :
  first_const4 l = None <-> forall j, const4 (firstn 4 (skipn j l)) = false.
Proof.
  induction l as [|x r IH].
  - simpl. split; [|reflexivity]. intros _ j. rewrite skipn_nil. reflexivity.
  - cbn [first_const4]. destruct (const4 (firstn 4 (x :: r))) eqn:E.
    + split; [discriminate|]. intros H. pose proof (H 0%nat) as H0. cbn [skipn] in H0. congruence.
    + case_eq (first_const4 r); [intros i' Er|intros Er]; simpl.
      * split; [discriminate|]. intros H. exfalso.
        assert (N : first_const4 r = None) by (apply IH; intros j; apply (H (S j))).
        congruence.
      * split; [|reflexivity]. intros _ [|j]; [exact E|]. apply IH. exact Er.
Qed.

Lemma first_const4_cons (x : nat) (r : list nat) :
  first_const4 (x :: r) = if const4 (firstn 4 (x :: r)) then Some 0%nat else option_map S (first_const4 r).
Proof. reflexivity. Qed.

Lemma first_const4_shift (last cur nc : nat) (r : list nat) :
  (nc <= 2)%nat -> cur <> last ->
  first_const4 (repeat last (S nc) ++ cur :: r) = option_map (fun i => (S nc + i)%nat) (first_const4 (cur :: r)).
Proof.
  intros Hnc Hne.
  destruct nc as [|[|[|nc]]]; try lia; cbn [repeat app].
  - rewrite (first_const4_cons last (cur :: r)).
    destruct (const4 (firstn 4 (last :: cur :: r))) eqn:E.
    { apply const4_true in E as [a Ea]. destruct r as [|? [|? ?]]; simpl in Ea; congruence. }
    destruct (first_const4 (cur :: r)); reflexivity.
  - rewrite (first_const4_cons last (last :: cur :: r)), (first_const4_cons last (cur :: r)).
    destruct (const4 (firstn 4 (last :: last :: cur :: r))) eqn:E.
    { apply const4_true in E as [a Ea]. destruct r as [|? ?]; simpl in Ea; congruence. }
    destruct (const4 (firstn 4 (last :: cur :: r))) eqn:E2.
    { apply const4_true in E2 as [a Ea]. destruct r as [|? [|? ?]]; simpl in Ea; congruence. }
    destruct (first_const4 (cur :: r)); reflexivity.
  - rewrite (first_const4_cons last (last :: last :: cur :: r)),
      (first_const4_cons last (last :: cur :: r)), (first_const4_cons last (cur :: r)).
    destruct (const4 (firstn 4 (last :: last :: last :: cur :: r))) eqn:E.
    { apply const4_true in E as [a Ea]. simpl in Ea. congruence. }
    destruct (const4 (firstn 4 (last :: last :: cur :: r))) eqn:E1.
    { apply const4_true in E1 as [a Ea]. destruct r as [|? ?]; simpl in Ea; congruence. }
    destruct (const4 (firstn 4 (last :: cur :: r))) eqn:E2.
    { apply const4_true in E2 as [a Ea]. destruct r as [|? [|? ?]]; simpl in Ea; congruence. }
    destruct (first_const4 (cur :: r)); reflexivity.
Qed.

(** The loop, from any state it can be in: its last count repeated
    [no_change_counter + 1] times stands for the readings it remembers. *)
Lemma scroll_loop_spec (reads : list nat) (last nc p : nat) :
  (nc < 3)%nat ->
  scroll_loop reads last nc p =
  match first_const4 (repeat last (S nc) ++ reads) with
  | Some i => Some ((p + i + 3 - nc)%nat, nth (i + 3) (repeat last (S nc) ++ reads) 0%nat)
  | None => None
  end.
Proof.
  revert last nc p. induction reads as [|cur r IH]; intros last nc p Hnc.
  - destruct nc as [|[|[|nc]]]; try lia; reflexivity.
  - cbn [scroll_loop]. destruct (Nat.eqb_spec cur last) as [->|Hne].
    + destruct nc as [|[|[|nc]]]; try lia.
      * cbn [Nat.leb]. rewrite IH by lia. cbn [repeat app].
        destruct (first_const4 (last :: last :: r)); [|reflexivity].
        repeat f_equal; lia.
      * cbn [Nat.leb]. rewrite IH by lia. cbn [repeat app].
        destruct (first_const4 (last :: last :: last :: r)); [|reflexivity].
        repeat f_equal; lia.
      * cbn [Nat.leb repeat app first_const4 firstn const4]. rewrite Nat.eqb_refl. simpl.
        repeat f_equal; lia.
    + rewrite IH by lia. rewrite first_const4_shift by (lia || exact Hne).
      change (repeat cur 1 ++ r) with (cur :: r).
      destruct (first_const4 (cur :: r)) as [i|]; cbn [option_map]; [|reflexivity].
      f_equal; f_equal; try lia.
      replace (S nc + i + 3)%nat with (length (repeat last (S nc)) + (i + 3))%nat
        by (rewrite repeat_length; lia).
      rewrite app_nth2_plus. reflexivity.
Qed.

(** [_scroll_page] stops at the first four equal readings, counting the
    [0] it starts from as the first: after [k] presses of End, where the
    run starts at reading [k - 3], with the last count read; when no four
    equal readings follow each other it never stops. *)
Theorem scroll_page_stops (reads : list nat) :
  (forall k c, scroll_page reads = Some (k, c) <->
     (3 <= k)%nat /\ const4 (firstn 4 (skipn (k - 3) (0%nat :: reads))) = true
     /\ c = nth k (0%nat :: reads) 0%nat
     /\ forall j, (j < k - 3)%nat -> const4 (firstn 4 (skipn j (0%nat :: reads))) = false)
  /\ (scroll_page reads = None <-> forall j, const4 (firstn 4 (skipn j (0%nat :: reads))) = false).
Proof.
  unfold scroll_page. rewrite scroll_loop_spec by lia. cbn [repeat app].
  split.
  - intros k c. destruct (first_const4 (0%nat :: reads)) as [i|] eqn:E.
    + apply first_const4_spec in E as [E1 E2]. split.
      * intros [= <- <-]. replace (0 + i + 3 - 0 - 3)%nat with i by lia. replace (i + 3 - 0 - 3)%nat with i by lia.
        repeat split; [lia|exact E1|rewrite Nat.sub_0_r; reflexivity|exact E2].
      * intros (Hk & H1 & -> & H2).
        assert (Ei : i = (k - 3)%nat).
        { destruct (Nat.lt_trichotomy i (k - 3)) as [Hlt|[Heq|Hgt]]; [|exact Heq|].
          - rewrite (H2 i Hlt) in E1. discriminate.
          - rewrite (E2 (k - 3)%nat Hgt) in H1. discriminate. }
        subst i. f_equal. f_equal; [lia|f_equal; lia].
    + split; [discriminate|]. intros (Hk & H1 & _ & _).
      apply first_const4_none with (j := (k - 3)%nat) in E. congruence.
  - destruct (first_const4 (0%nat :: reads)) as [i|] eqn:E.
    + split; [discriminate|]. intros H. apply first_const4_none in H. congruence.
    + split; [intros _|reflexivity]. apply first_const4_none. exact E.
Qed.

(* ================================================================== *)
(** * Date-time fields *)

Lemma chr_code (c : ascii) : c = chr (code c).
Proof. unfold chr, code. rewrite Nat2Z.id. symmetry. apply ascii_nat_embedding. Qed.

Lemma code_bound (c : ascii) : 0 <= code c < 256.
Proof. unfold code. pose proof (nat_ascii_bounded c). lia. Qed.

(** Every group [pat_match] records was matched by its directive's
    expression somewhere in the input. *)
Lemma pat_match_groups (ts : list tok) (inp : list ascii) (g g' : groups) (r : list ascii) :
  In (g', r) (pat_match ts inp g) ->
  forall d t, In (d, t) g' -> In (d, t) g \/ exists i r', In (t, r') (rx_match (directive_rx d) i).
Proof.
  revert inp g. induction ts as [|tk ts IH]; intros inp g Hin d t Hdt.
  - simpl in Hin. destruct Hin as [[= <- _]|[]]. left. exact Hdt.
  - destruct tk as [c| |dd]; cbn [pat_match] in Hin.
    + destruct inp as [|c' inp']; [contradiction|].
      destruct (Ascii.eqb (lower c') (lower c)); [|contradiction].
      exact (IH _ _ Hin d t Hdt).
    + apply in_flat_map in Hin as [p [_ Hp]]. exact (IH _ _ Hp d t Hdt).
    + apply in_flat_map in Hin as [p [Hp Hq]].
      destruct (IH _ _ Hq d t Hdt) as [[E|H]|H]; [|left; exact H|right; exact H].
      injection E as <- <-. right. exists inp, (snd p). destruct p; exact Hp.
Qed.

Lemma group_in (d : ascii) (g : groups) (t : list ascii) : group d g = Some t -> In (d, t) g.
Proof.
  unfold group. destruct (find (fun p => Ascii.eqb (fst p) d) g) as [[d' t']|] eqn:E; [|discriminate].
  simpl. intros [= <-]. apply find_some in E as [Hin Heq]. simpl in Heq.
  apply Ascii.eqb_eq in Heq. subst. exact Hin.
Qed.

Lemma rx_range_in (lo hi : Z) (inp t r : list ascii) :
  In (t, r) (rx_match (RRange lo hi) inp) -> exists c, t = [c] /\ lo <= code c <= hi.
Proof.
  cbn [rx_match]. destruct inp as [|c rest]; [intros []|].
  destruct ((lo <=? code c) && (code c <=? hi)) eqn:E; [|intros []].
  intros [[= <- _]|[]]. apply andb_true_iff in E as [E1 E2]. apply Z.leb_le in E1, E2. eauto.
Qed.

Lemma rx_seq_in (A B : rx) (inp t r : list ascii) :
  In (t, r) (rx_match (RSeq A B) inp) ->
  exists t1 r1 t2, In (t1, r1) (rx_match A inp) /\ In (t2, r) (rx_match B r1) /\ t = t1 ++ t2.
Proof.
  cbn [rx_match]. intros H. apply in_flat_map in H as [[t1 r1] [H1 H2]].
  apply in_map_iff in H2 as [[t2 r2] [E H2]]. simpl in E. injection E as <- <-.
  exists t1, r1, t2. auto.
Qed.

Lemma rx_alt_in (A B : rx) (inp t r : list ascii) :
  In (t, r) (rx_match (RAlt A B) inp) -> In (t, r) (rx_match A inp) \/ In (t, r) (rx_match B inp).
Proof. cbn [rx_match]. apply in_app_or. Qed.

Ltac range_in H := apply rx_range_in in H as (?c & -> & ?).
Ltac seq_in H := apply rx_seq_in in H as (?t1 & ?r1 & ?t2 & ?H1 & ?H2 & ->).

(** Checking a property of every one- or two-character text drawn from
    code ranges. *)
Lemma chars1_check (P : list ascii -> bool) (lo n : Z) (c : ascii) :
  forallb (fun z => P [chr z]) (zseq lo (Z.to_nat n)) = true ->
  0 <= lo -> lo <= code c < lo + n -> P [c] = true.
Proof.
  intros H Hlo Hc. rewrite (chr_code c).
  apply (forallb_zseq (fun z => P [chr z]) lo (Z.to_nat n)); [exact H|]. lia.
Qed.

Lemma chars2_check (P : list ascii -> bool) (lo1 n1 lo2 n2 : Z) (c1 c2 : ascii) :
  forallb (fun z1 => forallb (fun z2 => P [chr z1; chr z2]) (zseq lo2 (Z.to_nat n2)))
          (zseq lo1 (Z.to_nat n1)) = true ->
  0 <= lo1 -> 0 <= lo2 -> lo1 <= code c1 < lo1 + n1 -> lo2 <= code c2 < lo2 + n2 ->
  P [c1; c2] = true.
Proof.
  intros H Hl1 Hl2 H1 H2. rewrite (chr_code c1), (chr_code c2).
  pose proof (forallb_zseq _ lo1 (Z.to_nat n1) (code c1) H ltac:(lia)) as H'. cbv beta in H'.
  apply (forallb_zseq (fun z2 => P [chr (code c1); chr z2]) lo2 (Z.to_nat n2)); [exact H'|]. lia.
Qed.

(** The texts [%I] matches are the hours 1 to 12. *)
Lemma hour_text (inp t r : list ascii) :
  In (t, r) (rx_match (directive_rx "I") inp) -> int_in 1 12 t = true.
Proof.
  unfold directive_rx, ralts. cbn [fold_right]. intros H.
  apply rx_alt_in in H as [H|H]; [|apply rx_alt_in in H as [H|H];
    [|apply rx_alt_in in H as [H|H]; [|contradiction]]].
  - seq_in H. unfold rch in H1. range_in H1. range_in H2. cbn [app].
    apply (chars2_check _ 49 1 48 3); [vm_compute; reflexivity|lia|lia|
      change (code "1"%char) with 49 in *; lia|lia].
  - seq_in H. unfold rch in H1. range_in H1. range_in H2. cbn [app].
    apply (chars2_check _ 48 1 49 9); [vm_compute; reflexivity|lia|lia|
      change (code "0"%char) with 48 in *; lia|lia].
  - range_in H. apply (chars1_check _ 49 9); [vm_compute; reflexivity|lia|lia].
Qed.

(** The texts [%M] matches are the minutes 0 to 59. *)
Lemma minute_text (inp t r : list ascii) :
  In (t, r) (rx_match (directive_rx "M") inp) -> int_in 0 59 t = true.
Proof.
  unfold directive_rx, ralts. cbn [fold_right]. intros H.
  apply rx_alt_in in H as [H|H]; [|apply rx_alt_in in H as [H|H]; [|contradiction]].
  - seq_in H. range_in H1. unfold rdigit in H2. range_in H2. cbn [app].
    apply (chars2_check _ 48 6 48 10); [vm_compute; reflexivity|lia|lia|lia|lia].
  - unfold rdigit in H. range_in H. apply (chars1_check _ 48 10); [vm_compute; reflexivity|lia|lia].
Qed.

Lemma int_group_range (d : ascii) (lo hi dflt n : Z) (g : groups) :
  (forall t, group d g = Some t -> int_in lo hi t = true) ->
  int_group d dflt g = Some n -> (lo <= n <= hi) \/ n = dflt.
Proof.
  intros H. unfold int_group. destruct (group d g) as [t|] eqn:E.
  - intros Hp. specialize (H t eq_refl). unfold int_in in H. rewrite Hp in H.
    apply andb_true_iff in H as [H1 H2]. apply Z.leb_le in H1, H2. left. lia.
  - intros [= <-]. right. reflexivity.
Qed.

Lemma convert_time (g : groups) (dt : datetime) :
  (forall t, group "I" g = Some t -> int_in 1 12 t = true) ->
  (forall t, group "M" g = Some t -> int_in 0 59 t = true) ->
  convert g = Some dt ->
  valid_ymd (dt_year dt) (dt_month dt) (dt_day dt) = true
  /\ 0 <= dt_hour dt <= 23 /\ 0 <= dt_minute dt <= 59.
Proof.
  intros HI HM H. split; [exact (convert_valid g dt H)|].
  revert H. unfold convert.
  destruct (int_group "Y" 1900 g) as [y|]; cbv [mbind option_bind]; [|discriminate].
  destruct (match group "b" g with
            | Some t => index_of t month_abbr 1
            | None => int_group "m" 1 g
            end) as [m|]; cbv [mbind option_bind]; [|discriminate].
  destruct (int_group "d" 1 g) as [d|]; cbv [mbind option_bind]; [|discriminate].
  destruct (int_group "I" 0 g) as [hh|] eqn:Eh; cbv [mbind option_bind]; [|discriminate].
  destruct (int_group "M" 0 g) as [mi|] eqn:Em; cbv [mbind option_bind]; [|discriminate].
  apply (int_group_range "I" 1 12) in Eh; [|exact HI]. apply (int_group_range "M" 0 59) in Em; [|exact HM].
  destruct (valid_ymd y m d); [|discriminate]. intros [= <-]. simpl.
  split; [|lia].
  destruct (match _ with [] => true | _ => _ end);
    [destruct (Z.eqb_spec hh 12); lia|].
  destruct (bool_decide _); [destruct (Z.eqb_spec hh 12); lia|lia].
Qed.

Lemma strptime_groups (s fmt : string) (dt : datetime) :
  strptime s fmt = Some dt ->
  exists g, In (g, []) (pat_match (compile_format (chars fmt)) (chars s) []) /\ convert g = Some dt.
Proof.
  unfold strptime. destruct (pat_match _ _ _) as [|[g r] more]; [discriminate|].
  destruct r; [|discriminate]. intros H. exists g. split; [left; reflexivity|exact H].
Qed.

(** [_clean_datetime] only ever returns the [%Y-%m-%d %H:%M] rendering of
    a valid date with an hour from 0 to 23 and a minute from 0 to 59. *)
Theorem clean_datetime_fields (date_str time_str out : string) :
  clean_datetime date_str time_str = Some out ->
  exists dt, out = strftime_datetime dt
    /\ valid_ymd (dt_year dt) (dt_month dt) (dt_day dt) = true
    /\ 0 <= dt_hour dt <= 23 /\ 0 <= dt_minute dt <= 59.
Proof.
  unfold clean_datetime.
  destruct (strptime _ "%a, %b %d, %Y %I:%M %p") as [dt|] eqn:E; [|discriminate].
  intros [= <-]. exists dt. split; [reflexivity|].
  apply strptime_groups in E as (g & Hin & Hc).
  apply (convert_time g); [| |exact Hc].
  - intros t Ht. apply group_in in Ht.
    destruct (pat_match_groups _ _ _ _ _ Hin "I" t Ht) as [[]|(i & r' & Hr)].
    exact (hour_text _ _ _ Hr).
  - intros t Ht. apply group_in in Ht.
    destruct (pat_match_groups _ _ _ _ _ Hin "M" t Ht) as [[]|(i & r' & Hr)].
    exact (minute_text _ _ _ Hr).
Qed.

Lemma clean_datetime_fields_witness :
  clean_datetime "Thu, Jan 15, 2026" "10:30 PM" = Some "2026-01-15 22:30"
  /\ exists dt, "2026-01-15 22:30" = strftime_datetime dt
    /\ valid_ymd (dt_year dt) (dt_month dt) (dt_day dt) = true
    /\ 0 <= dt_hour dt <= 23 /\ 0 <= dt_minute dt <= 59.
Proof.
  assert (E : clean_datetime "Thu, Jan 15, 2026" "10:30 PM" = Some "2026-01-15 22:30")
    by (vm_compute; reflexivity).
  split; [exact E|]. exact (clean_datetime_fields _ _ _ E).
Defined.

(* ================================================================== *)
(** * Cache keys *)

Lemma le_bytes_spec (n : nat) (x : Z) :
  length (MD5.le_bytes n x) = n /\ Forall (fun b => 0 <= b < 256) (MD5.le_bytes n x).
Proof.
  unfold MD5.le_bytes. rewrite length_map, length_seq. split; [reflexivity|].
  apply Forall_map. apply Forall_forall. intros i _.
  change 255 with (Z.ones 8). rewrite Z.land_ones by lia.
  apply Z.mod_pos_bound. lia.
Qed.

Lemma digest_spec (bs : list Z) :
  length (MD5.digest bs) = 16%nat /\ Forall (fun b => 0 <= b < 256) (MD5.digest bs).
Proof.
  unfold MD5.digest.
  set (s := fold_left MD5.block _ _).
  destruct (le_bytes_spec 4 (MD5.sa s)) as [La Fa].
  destruct (le_bytes_spec 4 (MD5.sb s)) as [Lb Fb].
  destruct (le_bytes_spec 4 (MD5.sc s)) as [Lc Fc].
  destruct (le_bytes_spec 4 (MD5.sd s)) as [Ld Fd].
  rewrite !length_app, La, Lb, Lc, Ld. split; [reflexivity|].
  repeat apply Forall_app_2; assumption.
Qed.

Lemma hex_digit_in (k : Z) : 0 <= k < 16 -> In (hex_digit k) hex_alphabet.
Proof.
  intros Hk.
  pose proof (forallb_zseq (fun k => existsb (Ascii.eqb (hex_digit k)) hex_alphabet) 0 16 k
                ltac:(vm_compute; reflexivity) ltac:(lia)) as B.
  cbv beta in B. apply existsb_exists in B as [c [Hc E]]. apply Ascii.eqb_eq in E. subst. exact Hc.
Qed.

Lemma concat_hex2 (l : list Z) :
  Forall (fun b => 0 <= b < 256) l ->
  exists hx, concat_str (map hex2 l) = str_of hx /\ length hx = (2 * length l)%nat
             /\ Forall (fun c => In c hex_alphabet) hx.
Proof.
  induction 1 as [|b l Hb _ IH].
  - exists []. repeat split; constructor.
  - destruct IH as (hx & E & L & F).
    exists (hex_digit (b / 16) :: hex_digit (b mod 16) :: hx). simpl. rewrite E.
    split; [reflexivity|]. split; [simpl; lia|].
    constructor; [apply hex_digit_in; split; [apply Z.div_pos|apply Z.div_lt_upper_bound]; lia|].
    constructor; [apply hex_digit_in; apply Z.mod_pos_bound; lia|exact F].
Qed.

(** Every cache key is ["flights_search_"] followed by exactly 32
    lower-case hexadecimal digits (the MD5 digest of the dumped data). *)
Theorem cache_key_shape (sd : SearchData) :
  exists hx, generate_cache_key sd = "flights_search_" +++ str_of hx
    /\ length hx = 32%nat /\ Forall (fun c => In c hex_alphabet) hx.
Proof.
  unfold generate_cache_key, MD5.hexdigest.
  destruct (digest_spec (map code (chars (dumps (search_json sd))))) as [L F].
  destruct (concat_hex2 _ F) as (hx & E & Lh & Fh).
  exists hx. rewrite E, Lh, L. auto.
Qed.
